(** * smartmeter-exporter: the scrape orchestrator, its decoder and its
    configuration

    A shallow embedding of [main.go] of hnw/smartmeter-exporter, a Prometheus
    exporter that polls an ECHONET Lite smart meter over a Wi-SUN module.

    The definitions come first and follow the program:
    - [slice], [binary]: byte slices and the two [encoding/binary] readers;
    - [Float64]: Go's integer to [float64] conversion, on Rocq's binary64;
    - [time]: durations and the clock;
    - [Echonet], [DeviceClient]: what the program uses of go-smartmeter;
    - section [Exporter]: the panic-aware state monad a cycle runs in, the
      collectors, [parseAndSetMetrics], [scrape] and [runScrapeLoop] of the
      [log/slog] variant of the file, the same functions of its older [log]
      variant, and the observations the theorems are stated with;
    - [strconv], [main_config]: the part of [main] that turns environment and
      flags into the poll interval and the DSE switch;
    - [Example]: a scripted device and a manual clock.
    The theorems follow, in the same order. *)

From Stdlib Require Import ZArith Floats Lia Ascii String.
From stdpp Require Import base strings list gmap.

Open Scope Z_scope.

(** ** Bytes and [encoding/binary] *)

Abbreviation byte := Byte.byte.

(** The numeric value of a byte. *)
Definition byte_val (b : byte) : Z := Z.of_N (Byte.to_N b).

#[global] Instance byte_eq_dec : EqDecision byte.
Proof.
  intros a b. destruct (Byte.eqb a b) eqn:E.
  - left. by apply Byte.byte_dec_bl.
  - right. intros ->. by rewrite Byte.byte_dec_lb in E.
Defined.

(** The run-time panics the program can raise. *)
Inductive PanicReason :=
| IndexOutOfRange
| SliceBoundsOutOfRange
| NonPositiveTickerInterval.

(** A Go [[]byte] is modelled by the list of its [len] elements.  A slice also
    has a capacity: [s[:2]] is checked against [cap s], while [s[2:]] and
    indexing are checked against [len s].  The decoder evaluates [EDT[:2]] and
    then [EDT[2:]], so on a slice of fewer than two elements the second
    expression panics whenever the first did not: whether the statement
    panics depends on [len] alone, and so does the model. *)
Module slice.

(** [s[:n]]; [None] when the bound check fails. *)
Definition to (n : nat) (s : list byte) : option (list byte) :=
  if (n <=? length s)%nat then Some (take n s) else None.

(** [s[n:]]; [None] when the bound check fails. *)
Definition from (n : nat) (s : list byte) : option (list byte) :=
  if (n <=? length s)%nat then Some (drop n s) else None.

End slice.

Module binary.

(** [binary.BigEndian.Uint16]: [_ = b[1]] is the bound check, then
    [uint16(b[1]) | uint16(b[0])<<8].  [None] is the run-time panic. *)
Definition BigEndian_Uint16 (b : list byte) : option Z :=
  match b with
  | b0 :: b1 :: _ => Some (Z.lor (byte_val b1) (Z.shiftl (byte_val b0) 8))
  | _ => None
  end.

(** [binary.BigEndian.Uint32]: [_ = b[3]], then
    [uint32(b[3]) | uint32(b[2])<<8 | uint32(b[1])<<16 | uint32(b[0])<<24]. *)
Definition BigEndian_Uint32 (b : list byte) : option Z :=
  match b with
  | b0 :: b1 :: b2 :: b3 :: _ =>
      Some (Z.lor (Z.lor (Z.lor (byte_val b3) (Z.shiftl (byte_val b2) 8))
                         (Z.shiftl (byte_val b1) 16))
                  (Z.shiftl (byte_val b0) 24))
  | _ => None
  end.

End binary.

(** The value of a byte string read as a big-endian numeral: the reading the
    specification gives of the two property payloads. *)
Definition be_value (b : list byte) : Z :=
  fold_left (fun acc x => 256 * acc + byte_val x) b 0.

(** ** [float64] *)

Module Float64.

(** Go converts an integer to [float64] by rounding to the nearest
    representable value, ties to even; [binary_normalize] is that rounding. *)
Definition of_int (z : Z) : float :=
  SF2Prim (binary_normalize prec emax z 0 false).

(** The integer a binary64 number denotes, when it is finite and integral:
    [(-1)^s * m * 2^e] for [S754_finite s m e]. *)
Definition int_value (f : float) : option Z :=
  match Prim2SF f with
  | S754_zero _ => Some 0
  | S754_finite s m e =>
      if 0 <=? e then Some (cond_Zopp s (Zpos m * 2 ^ e))
      else if Zpos m mod 2 ^ (- e) =? 0
           then Some (cond_Zopp s (Zpos m / 2 ^ (- e)))
           else None
  | _ => None
  end.

End Float64.

(** ** [time] *)

Module time.

(** A [time.Duration] is an [int64] count of nanoseconds. *)
Definition Second : Z := 1000000000.

Definition minDuration : Z := - 2 ^ 63.
Definition maxDuration : Z := 2 ^ 63 - 1.

(** A [time.Time] is kept as the nanoseconds since the Unix epoch. *)
Definition Unix (t : Z) : Z := t `div` Second.

(** [t.Sub(u)]: the difference, saturated to the range of [Duration]. *)
Definition Sub (t u : Z) : Z :=
  Z.max minDuration (Z.min maxDuration (t - u)).

(** [d.Seconds()]: [float64(d / Second) + float64(d % Second) / 1e9], with
    Go's truncating quotient and remainder. *)
Definition Seconds (d : Z) : float :=
  (Float64.of_int (Z.quot d Second) + Float64.of_int (Z.rem d Second) / 1e9)%float.

(** The wall clock.  [Now] may answer anything and change the clock's state,
    so the readings of one cycle are an arbitrary sequence; [Sleep] is given
    the duration and answers the clock's state after it. *)
Class Clock := {
  ClockState : Type;
  Now : ClockState → Z * ClockState;
  Sleep : Z → ClockState → ClockState;
}.

End time.

Definition reAuthCooldown : Z := 5 * time.Second.
Definition postAuthCooldown : Z := 2 * time.Second.

Definition errorTypeIPResolve : string := "ip_resolve".
Definition errorTypeAuth : string := "auth".
Definition errorTypeQuery : string := "query".
Definition errorTypeParse : string := "parse".

(** ** The go-smartmeter package

    The device transport is another repository's code.  [Echonet] holds the
    identifiers the program names; two [case] constants of one [switch] are
    distinct values, which is [EPC_distinct]. *)
Class Echonet := {
  EPCType : Type;
  EPCType_eq_dec :: EqDecision EPCType;
  ClassGroupCode : Type;
  ESVType : Type;
  LvSmartElectricEnergyMeter : ClassGroupCode;
  Get : ESVType;
  LvSmartElectricEnergyMeter_InstantaneousElectricPower : EPCType;
  LvSmartElectricEnergyMeter_InstantaneousCurrent : EPCType;
  EPC_distinct :
    LvSmartElectricEnergyMeter_InstantaneousElectricPower
    ≠ LvSmartElectricEnergyMeter_InstantaneousCurrent;
}.

Section Frames.
Context `{Echonet}.

(** [smartmeter.Property]: the fields the program reads. *)
Record Property := NewProperty {
  EPC : EPCType;
  EDT : list byte;
}.

(** [smartmeter.Frame], built by [smartmeter.NewFrame(class, esv, props)]. *)
Record Frame := NewFrame {
  Class_ : ClassGroupCode;
  ESV : ESVType;
  Properties : list Property;
}.

End Frames.

(** An [error] value, by its message. *)
Abbreviation error := string.

(** [*smartmeter.Device]: the exported field the program reads and writes, and
    whatever else the package keeps. *)
Record Device (DevState : Type) := mkDevice {
  IPAddr : string;
  priv : DevState;
}.
Arguments mkDevice {DevState} _ _.
Arguments IPAddr {DevState} _.
Arguments priv {DevState} _.

(** The three methods the program calls.  Each receives the device (pointer
    receiver) and may change all of it.  [inl] is the value returned with a
    [nil] error, [inr] the error; a [nil] error comes with a frame that is not
    [nil] and holds no [nil] property. *)
Class DeviceClient `{Echonet} := {
  DevState : Type;
  GetNeibourIP : Device DevState → (string + error) * Device DevState;
  Authenticate : Device DevState → option error * Device DevState;
  QueryEchonetLite :
    Device DevState → Frame → Z → (Frame + error) * Device DevState;
}.

(** ** Logging

    A call to the logger is kept as data.  The [log] variant calls
    [Printf]/[Println]; the [log/slog] variant calls [Debug], [Info], [Warn]
    and [Error] with a message and key-value pairs. *)
Inductive LogArg :=
| ArgError (e : error)
| ArgDuration (d : Z).

Inductive SlogLevel := LevelDebug | LevelInfo | LevelWarn | LevelError.

Inductive LogCall :=
| Printf (format : string) (args : list LogArg)
| Println (msg : string)
| Slog (level : SlogLevel) (msg : string) (attrs : list (string * LogArg)).

(** ** The metrics registry

    The five collectors registered in [init].  A gauge holds a [float64] and
    starts at zero; a [GaugeVec] or [CounterVec] holds one child per label
    value, created by the first [WithLabelValues]; a counter child counts its
    [Inc] calls; the histogram is kept as the list of observed values. *)
Record Metrics := mkMetrics {
  powerGauge : float;
  currentGauge : gmap string float;
  lastSuccessGauge : float;
  scrapeDuration : list float;
  scrapeErrors : gmap string Z;
}.

Definition metrics_init : Metrics :=
  mkMetrics 0%float ∅ 0%float [] ∅.

(** The value a counter child shows: zero until its first [Inc]. *)
Definition counter_value (m : Metrics) (label : string) : Z :=
  default 0 (scrapeErrors m !! label).

Section Exporter.
Context `{client : DeviceClient} `{clock : time.Clock}.

(** What a cycle does to the outside, in order. *)
Inductive Event :=
| EvGetNeibourIP
| EvQueryEchonetLite (request : Frame) (retry : Z)
| EvAuthenticate
| EvSleep (d : Z)
| EvLog (c : LogCall).

(** The state a cycle runs in. *)
Record World := mkWorld {
  dev : Device DevState;
  clk : time.ClockState;
  metrics : Metrics;
  trace : list Event;
}.

(** A call either returns or panics; a panic that nothing recovers ends the
    process.  Both carry the state reached. *)
Inductive Outcome (A : Type) :=
| Returned (a : A) (w : World)
| Panicked (r : PanicReason) (w : World).
Arguments Returned {A} _ _.
Arguments Panicked {A} _ _.

Definition Prog (A : Type) : Type := World → Outcome A.

Definition prog_ret {A} (a : A) : Prog A := λ w, Returned a w.

Definition prog_bind {A B} (f : A → Prog B) (m : Prog A) : Prog B :=
  λ w, match m w with
       | Returned a w' => f a w'
       | Panicked r w' => Panicked r w'
       end.

#[global] Instance Prog_ret : MRet Prog := @prog_ret.
#[global] Instance Prog_bind : MBind Prog := @prog_bind.

Definition panic {A} (r : PanicReason) : Prog A := λ w, Panicked r w.

(** An operation that panics when its bound check fails. *)
Definition checked {A} (r : PanicReason) (o : option A) : Prog A :=
  match o with
  | Some a => mret a
  | None => panic r
  end.

(** [defer d] around [body]: [d] runs when [body] returns and when it
    panics; the panic goes on afterwards. *)
Definition defer {A} (d : Prog unit) (body : Prog A) : Prog A :=
  λ w, match body w with
       | Returned a w' => (d ;; mret a) w'
       | Panicked r w' =>
           match d w' with
           | Returned _ w'' => Panicked r w''
           | Panicked r' w'' => Panicked r' w''
           end
       end.

(** A step that only changes the state, and one that also answers. *)
Definition modify (f : World → World) : Prog unit := λ w, Returned tt (f w).

Definition call {A} (f : World → A * World) : Prog A :=
  λ w, let '(a, w') := f w in Returned a w'.

Definition emit (e : Event) : Prog unit :=
  modify (λ w, mkWorld (dev w) (clk w) (metrics w) (trace w ++ [e])).

Definition modify_metrics (f : Metrics → Metrics) : Prog unit :=
  modify (λ w, mkWorld (dev w) (clk w) (f (metrics w)) (trace w)).

(** *** The collectors' update operations *)

Definition powerGauge_Set (v : float) : Prog unit :=
  modify_metrics (λ m, mkMetrics v (currentGauge m) (lastSuccessGauge m)
                                 (scrapeDuration m) (scrapeErrors m)).

(** [currentGauge.WithLabelValues(phase).Set(v)]. *)
Definition currentGauge_Set (phase : string) (v : float) : Prog unit :=
  modify_metrics (λ m, mkMetrics (powerGauge m) (<[phase := v]> (currentGauge m))
                                 (lastSuccessGauge m) (scrapeDuration m)
                                 (scrapeErrors m)).

Definition lastSuccessGauge_Set (v : float) : Prog unit :=
  modify_metrics (λ m, mkMetrics (powerGauge m) (currentGauge m) v
                                 (scrapeDuration m) (scrapeErrors m)).

Definition scrapeDuration_Observe (v : float) : Prog unit :=
  modify_metrics (λ m, mkMetrics (powerGauge m) (currentGauge m)
                                 (lastSuccessGauge m) (scrapeDuration m ++ [v])
                                 (scrapeErrors m)).

(** [scrapeErrors.WithLabelValues(label).Inc()]. *)
Definition scrapeErrors_Inc (label : string) : Prog unit :=
  modify_metrics (λ m, mkMetrics (powerGauge m) (currentGauge m)
                                 (lastSuccessGauge m) (scrapeDuration m)
                                 (<[label := counter_value m label + 1]>
                                    (scrapeErrors m))).

(** *** The clock *)

Definition time_Now : Prog Z :=
  call (λ w, let '(t, c) := time.Now (clk w) in
             (t, mkWorld (dev w) c (metrics w) (trace w))).

(** [time.Since(start)] is [time.Now().Sub(start)]. *)
Definition time_Since (start : Z) : Prog Z :=
  now ← time_Now; mret (time.Sub now start).

Definition time_Sleep (d : Z) : Prog unit :=
  emit (EvSleep d);;
  modify (λ w, mkWorld (dev w) (time.Sleep d (clk w)) (metrics w) (trace w)).

(** *** The device *)

Definition dev_IPAddr : Prog string := call (λ w, (IPAddr (dev w), w)).

Definition set_dev_IPAddr (ip : string) : Prog unit :=
  modify (λ w, mkWorld (mkDevice ip (priv (dev w))) (clk w) (metrics w) (trace w)).

Definition dev_GetNeibourIP : Prog (string + error) :=
  emit EvGetNeibourIP;;
  call (λ w, let '(r, d) := GetNeibourIP (dev w) in
             (r, mkWorld d (clk w) (metrics w) (trace w))).

Definition dev_Authenticate : Prog (option error) :=
  emit EvAuthenticate;;
  call (λ w, let '(r, d) := Authenticate (dev w) in
             (r, mkWorld d (clk w) (metrics w) (trace w))).

Definition dev_QueryEchonetLite (request : Frame) (retry : Z) : Prog (Frame + error) :=
  emit (EvQueryEchonetLite request retry);;
  call (λ w, let '(r, d) := QueryEchonetLite (dev w) request retry in
             (r, mkWorld d (clk w) (metrics w) (trace w))).

(** *** The loggers *)

Definition logger_Printf (format : string) (args : list LogArg) : Prog unit :=
  emit (EvLog (Printf format args)).
Definition logger_Println (msg : string) : Prog unit :=
  emit (EvLog (Println msg)).
Definition logger_Debug (msg : string) (attrs : list (string * LogArg)) : Prog unit :=
  emit (EvLog (Slog LevelDebug msg attrs)).
Definition logger_Info (msg : string) (attrs : list (string * LogArg)) : Prog unit :=
  emit (EvLog (Slog LevelInfo msg attrs)).
Definition logger_Warn (msg : string) (attrs : list (string * LogArg)) : Prog unit :=
  emit (EvLog (Slog LevelWarn msg attrs)).

(** *** [parseAndSetMetrics], [log/slog] variant *)

(** The [for _, p := range response.Properties] loop with its [switch];
    [foundData] is the flag the loop sets. *)
Fixpoint parseAndSetMetrics_loop (ps : list Property) (foundData : bool) : Prog bool :=
  match ps with
  | [] => mret foundData
  | p :: rest =>
      if decide (EPC p = LvSmartElectricEnergyMeter_InstantaneousElectricPower) then
        u ← checked IndexOutOfRange (binary.BigEndian_Uint32 (EDT p));
        let val := Float64.of_int u in
        powerGauge_Set val;;
        parseAndSetMetrics_loop rest true
      else if decide (EPC p = LvSmartElectricEnergyMeter_InstantaneousCurrent) then
        hi ← checked SliceBoundsOutOfRange (slice.to 2 (EDT p));
        ur ← checked IndexOutOfRange (binary.BigEndian_Uint16 hi);
        let r := (Float64.of_int ur / 10)%float in
        lo ← checked SliceBoundsOutOfRange (slice.from 2 (EDT p));
        ut ← checked IndexOutOfRange (binary.BigEndian_Uint16 lo);
        let t := (Float64.of_int ut / 10)%float in
        currentGauge_Set "r" r;;
        currentGauge_Set "t" t;;
        parseAndSetMetrics_loop rest true
      else parseAndSetMetrics_loop rest foundData
  end.

Definition parseAndSetMetrics (response : Frame) : Prog unit :=
  foundData ← parseAndSetMetrics_loop (Properties response) false;
  if foundData : bool then
    now ← time_Now;
    lastSuccessGauge_Set (Float64.of_int (time.Unix now));;
    logger_Debug "Scrape successful" []
  else
    logger_Warn "Response contained no recognized properties" [];;
    scrapeErrors_Inc errorTypeParse.

(** *** [scrape], [log/slog] variant *)

(** The request of both properties, with [nil] payloads. *)
Definition request : Frame :=
  NewFrame LvSmartElectricEnergyMeter Get
    [ NewProperty LvSmartElectricEnergyMeter_InstantaneousElectricPower [];
      NewProperty LvSmartElectricEnergyMeter_InstantaneousCurrent [] ].

(** How a block of [scrape] ends: it falls through to the next statement with
    a value, or it executed [return]. *)
Inductive Flow (A : Type) :=
| Next (a : A)
| Return.
Arguments Next {A} _.
Arguments Return {A}.

(** The block that resolves the address when [dev.IPAddr] is empty. *)
Definition scrape_resolve : Prog (Flow unit) :=
  ip ← dev_IPAddr;
  if decide (ip = EmptyString) then
    r ← dev_GetNeibourIP;
    match r with
    | inr err =>
        logger_Warn "Failed to scan neighbor IP" [("error", ArgError err)];;
        scrapeErrors_Inc errorTypeIPResolve;;
        mret Return
    | inl ipAddr =>
        set_dev_IPAddr ipAddr;;
        mret (Next tt)
    end
  else mret (Next tt).

(** The query with its [if err != nil { ... }] block; it falls through with
    the response to decode. *)
Definition scrape_query : Prog (Flow Frame) :=
  r ← dev_QueryEchonetLite request 3;
  match r with
  | inl response => mret (Next response)
  | inr err =>
      logger_Info "Query failed, attempting re-auth" [("error", ArgError err)];;
      logger_Debug "Waiting before re-auth" [("cooldown", ArgDuration reAuthCooldown)];;
      time_Sleep reAuthCooldown;;
      authErr ← dev_Authenticate;
      match authErr with
      | Some authErr =>
          logger_Warn "Authentication failed" [("error", ArgError authErr)];;
          scrapeErrors_Inc errorTypeAuth;;
          mret Return
      | None =>
          logger_Info "Re-authentication successful" [];;
          logger_Debug "Waiting before retrying query"
                       [("cooldown", ArgDuration postAuthCooldown)];;
          time_Sleep postAuthCooldown;;
          r' ← dev_QueryEchonetLite request 3;
          match r' with
          | inr err' =>
              logger_Warn "Query failed after re-auth" [("error", ArgError err')];;
              scrapeErrors_Inc errorTypeQuery;;
              mret Return
          | inl response => mret (Next response)
          end
      end
  end.

(** The deferred call: [scrapeDuration.Observe(time.Since(start).Seconds())]. *)
Definition scrape_deferred (start : Z) : Prog unit :=
  d ← time_Since start;
  scrapeDuration_Observe (time.Seconds d).

(** The statements after the [defer]. *)
Definition scrape_body : Prog unit :=
  resolved ← scrape_resolve;
  match resolved with
  | Return => mret tt
  | Next _ =>
      queried ← scrape_query;
      match queried with
      | Return => mret tt
      | Next response => parseAndSetMetrics response
      end
  end.

Definition scrape : Prog unit :=
  start ← time_Now;
  defer (scrape_deferred start) scrape_body.

(** *** [runScrapeLoop]

    [time.NewTicker] panics on an interval that is not positive.  The loop
    then scrapes once and once more per tick; [ticks] is the number of ticks
    it receives before the context is cancelled. *)
Fixpoint scrape_times (n : nat) : Prog unit :=
  match n with
  | O => mret tt
  | S n' => scrape;; scrape_times n'
  end.

Definition runScrapeLoop (interval : Z) (ticks : nat) : Prog unit :=
  (if interval <=? 0 then panic NonPositiveTickerInterval else mret tt);;
  logger_Info "First scrape starting" [];;
  scrape;;
  scrape_times ticks.

(** *** The older [log] variant of the same three functions *)

Fixpoint parseAndSetMetrics_log_loop (ps : list Property) (foundData : bool) : Prog bool :=
  match ps with
  | [] => mret foundData
  | p :: rest =>
      if decide (EPC p = LvSmartElectricEnergyMeter_InstantaneousElectricPower) then
        u ← checked IndexOutOfRange (binary.BigEndian_Uint32 (EDT p));
        let val := Float64.of_int u in
        powerGauge_Set val;;
        parseAndSetMetrics_log_loop rest true
      else if decide (EPC p = LvSmartElectricEnergyMeter_InstantaneousCurrent) then
        hi ← checked SliceBoundsOutOfRange (slice.to 2 (EDT p));
        ur ← checked IndexOutOfRange (binary.BigEndian_Uint16 hi);
        let r := (Float64.of_int ur / 10)%float in
        lo ← checked SliceBoundsOutOfRange (slice.from 2 (EDT p));
        ut ← checked IndexOutOfRange (binary.BigEndian_Uint16 lo);
        let t := (Float64.of_int ut / 10)%float in
        currentGauge_Set "r" r;;
        currentGauge_Set "t" t;;
        parseAndSetMetrics_log_loop rest true
      else parseAndSetMetrics_log_loop rest foundData
  end.

Definition parseAndSetMetrics_log (response : Frame) : Prog unit :=
  foundData ← parseAndSetMetrics_log_loop (Properties response) false;
  if foundData : bool then
    now ← time_Now;
    lastSuccessGauge_Set (Float64.of_int (time.Unix now));;
    logger_Println "Scrape successful"
  else
    logger_Println "Response contained no recognized properties";;
    scrapeErrors_Inc errorTypeParse.

Definition scrape_log_resolve : Prog (Flow unit) :=
  ip ← dev_IPAddr;
  if decide (ip = EmptyString) then
    r ← dev_GetNeibourIP;
    match r with
    | inr err =>
        logger_Printf "Failed to scan neighbor IP: %v" [ArgError err];;
        scrapeErrors_Inc errorTypeIPResolve;;
        mret Return
    | inl ipAddr =>
        set_dev_IPAddr ipAddr;;
        mret (Next tt)
    end
  else mret (Next tt).

Definition scrape_log_query : Prog (Flow Frame) :=
  r ← dev_QueryEchonetLite request 3;
  match r with
  | inl response => mret (Next response)
  | inr err =>
      logger_Printf "Query failed: %v" [ArgError err];;
      logger_Printf "Waiting %s before attempting re-auth..."
                    [ArgDuration reAuthCooldown];;
      time_Sleep reAuthCooldown;;
      authErr ← dev_Authenticate;
      match authErr with
      | Some authErr =>
          logger_Printf "Authentication failed: %v" [ArgError authErr];;
          scrapeErrors_Inc errorTypeAuth;;
          mret Return
      | None =>
          logger_Printf
            "Re-authentication successful. Waiting %s before retrying query..."
            [ArgDuration postAuthCooldown];;
          time_Sleep postAuthCooldown;;
          r' ← dev_QueryEchonetLite request 3;
          match r' with
          | inr err' =>
              logger_Printf "Query failed after re-auth: %v" [ArgError err'];;
              scrapeErrors_Inc errorTypeQuery;;
              mret Return
          | inl response => mret (Next response)
          end
      end
  end.

Definition scrape_log_body : Prog unit :=
  resolved ← scrape_log_resolve;
  match resolved with
  | Return => mret tt
  | Next _ =>
      queried ← scrape_log_query;
      match queried with
      | Return => mret tt
      | Next response => parseAndSetMetrics_log response
      end
  end.

Definition scrape_log : Prog unit :=
  start ← time_Now;
  defer (scrape_deferred start) scrape_log_body.

(** *** Observations on a run *)

Definition is_log (e : Event) : bool :=
  match e with EvLog _ => true | _ => false end.

(** The events of a trace that are not calls to a logger. *)
Definition non_log (t : list Event) : list Event :=
  filter (λ e, is_log e = false) t.

(** A state with the logger calls left out of its trace. *)
Definition erase_log (w : World) : World :=
  mkWorld (dev w) (clk w) (metrics w) (non_log (trace w)).

Definition erase_log_outcome {A} (o : Outcome A) : Outcome A :=
  match o with
  | Returned a w => Returned a (erase_log w)
  | Panicked r w => Panicked r (erase_log w)
  end.

(** Two programs that differ in their logger calls only: from states that
    agree but for the logger calls in their traces, they end alike, with
    outcomes that agree but for the logger calls. *)
Definition log_equiv {A} (p q : Prog A) : Prop :=
  ∀ w w', erase_log w = erase_log w' →
          erase_log_outcome (p w) = erase_log_outcome (q w').

(** The state an outcome carries, and whether it is a return. *)
Definition final {A} (o : Outcome A) : World :=
  match o with
  | Returned _ w => w
  | Panicked _ w => w
  end.

Definition returns {A} (o : Outcome A) : bool :=
  match o with
  | Returned _ _ => true
  | Panicked _ _ => false
  end.

(** The reason of the panic that ends a run, if one does. *)
Definition panicked {A} (o : Outcome A) : option PanicReason :=
  match o with
  | Returned _ _ => None
  | Panicked r _ => Some r
  end.

(** The events a run added to the trace it started from. *)
Definition cycle_events {A} (w : World) (o : Outcome A) : list Event :=
  drop (length (trace w)) (trace (final o)).

(** The device as [scrape] hands it to the first query: the device itself when
    it holds an address, the device with the resolved address stored when the
    resolution succeeds, and none when the resolution fails. *)
Definition device_at_query (w : World) : option (Device DevState) :=
  if decide (IPAddr (dev w) = EmptyString) then
    match GetNeibourIP (dev w) with
    | (inl ipAddr, d) => Some (mkDevice ipAddr (priv d))
    | (inr _, _) => None
    end
  else Some (dev w).

(** The response a cycle started in [w] hands to [parseAndSetMetrics], when
    it gets that far: the answer to the first query, or the answer to the
    second one after a re-authentication that succeeded. *)
Definition decoded_response (w : World) : option Frame :=
  match device_at_query w with
  | None => None
  | Some d0 =>
      match QueryEchonetLite d0 request 3 with
      | (inl response, _) => Some response
      | (inr _, d1) =>
          match Authenticate d1 with
          | (Some _, _) => None
          | (None, d2) =>
              match QueryEchonetLite d2 request 3 with
              | (inl response, _) => Some response
              | (inr _, _) => None
              end
          end
      end
  end.

(** The events of the [log/slog] query block up to the second query, and from
    there on. *)
Definition reauth_events (err : error) : list Event :=
  [ EvQueryEchonetLite request 3;
    EvLog (Slog LevelInfo "Query failed, attempting re-auth" [("error", ArgError err)]);
    EvLog (Slog LevelDebug "Waiting before re-auth" [("cooldown", ArgDuration reAuthCooldown)]);
    EvSleep reAuthCooldown;
    EvAuthenticate ].

Definition retry_events : list Event :=
  [ EvLog (Slog LevelInfo "Re-authentication successful" []);
    EvLog (Slog LevelDebug "Waiting before retrying query"
             [("cooldown", ArgDuration postAuthCooldown)]);
    EvSleep postAuthCooldown;
    EvQueryEchonetLite request 3 ].

Definition count_error (m : Metrics) (label : string) : Metrics :=
  mkMetrics (powerGauge m) (currentGauge m) (lastSuccessGauge m)
            (scrapeDuration m)
            (<[label := counter_value m label + 1]> (scrapeErrors m)).

(** The state after the [time.Now()] that opens a cycle, and the state after
    the deferred observation that closes it. *)
Definition started (w : World) : World :=
  mkWorld (dev w) (time.Now (clk w)).2 (metrics w) (trace w).

Definition finished (start : Z) (w : World) : World :=
  mkWorld (dev w) (time.Now (clk w)).2
    (mkMetrics (powerGauge (metrics w)) (currentGauge (metrics w))
       (lastSuccessGauge (metrics w))
       (scrapeDuration (metrics w)
        ++ [time.Seconds (time.Sub (time.Now (clk w)).1 start)])
       (scrapeErrors (metrics w)))
    (trace w).

(** The device event a cycle begins with: the resolution, when the device
    holds no address. *)
Definition resolve_events (w : World) : list Event :=
  if decide (IPAddr (dev w) = EmptyString) then [EvGetNeibourIP] else [].

(** A client that leaves the [IPAddr] field to the program once the device
    holds an address: authenticating and querying do not change it. *)
Definition keeps_IPAddr : Prop :=
  (∀ d, IPAddr d ≠ EmptyString → IPAddr (Authenticate d).2 = IPAddr d) ∧
  (∀ d f n, IPAddr d ≠ EmptyString → IPAddr (QueryEchonetLite d f n).2 = IPAddr d).

(** *** The decoder as the specification words it

    A property is recognized when it carries one of the two identifiers; the
    readings are numerals read off the payload. *)
Definition recognized (p : Property) : bool :=
  bool_decide (EPC p = LvSmartElectricEnergyMeter_InstantaneousElectricPower)
  || bool_decide (EPC p = LvSmartElectricEnergyMeter_InstantaneousCurrent).

(** A property the decoder can read: one it ignores, or one of four bytes or
    more. *)
Definition well_sized (p : Property) : bool :=
  negb (recognized p) || (4 <=? length (EDT p))%nat.

(** The readings after one property. *)
Definition decode_property (m : Metrics) (p : Property) : Metrics :=
  if decide (EPC p = LvSmartElectricEnergyMeter_InstantaneousElectricPower) then
    mkMetrics (Float64.of_int (be_value (take 4 (EDT p))))
              (currentGauge m) (lastSuccessGauge m) (scrapeDuration m)
              (scrapeErrors m)
  else if decide (EPC p = LvSmartElectricEnergyMeter_InstantaneousCurrent) then
    mkMetrics (powerGauge m)
              (<["t" := (Float64.of_int (be_value (take 2 (drop 2 (EDT p)))) / 10)%float]>
                 (<["r" := (Float64.of_int (be_value (take 2 (EDT p))) / 10)%float]>
                    (currentGauge m)))
              (lastSuccessGauge m) (scrapeDuration m) (scrapeErrors m)
  else m.

Definition decode (m : Metrics) (ps : list Property) : Metrics :=
  foldl decode_property m ps.

Definition with_metrics (w : World) (m : Metrics) : World :=
  mkWorld (dev w) (clk w) m (trace w).

End Exporter.

Arguments Returned {_ _ _ A} _ _.
Arguments Panicked {_ _ _ A} _ _.
Arguments Next {A} _.
Arguments Return {A}.

(** ** [strconv] and the configuration read by [main] *)

Module strconv.

Definition digit (c : ascii) : option Z :=
  let n := Z.of_N (N_of_ascii c) in
  if (48 <=? n) && (n <=? 57) then Some (n - 48) else None.

Fixpoint digits (s : string) (acc : Z) : option Z :=
  match s with
  | EmptyString => Some acc
  | String c rest =>
      match digit c with
      | Some d => digits rest (10 * acc + d)
      | None => None
      end
  end.

(** [strconv.Atoi] where [int] has [intSize] bits: an optional sign, then one
    or more decimal digits, and a value that fits [int].  [None] is a
    returned error, of syntax or of range. *)
Definition Atoi (intSize : Z) (s : string) : option Z :=
  let '(neg, body) :=
    match s with
    | String "+" rest => (false, rest)
    | String "-" rest => (true, rest)
    | _ => (false, s)
    end in
  match body with
  | EmptyString => None
  | _ =>
      match digits body 0 with
      | None => None
      | Some n =>
          let v := if neg : bool then - n else n in
          if (- 2 ^ (intSize - 1) <=? v) && (v <=? 2 ^ (intSize - 1) - 1)
          then Some v else None
      end
  end.

End strconv.

(** Arithmetic on [int64] wraps around. *)
Definition wrap64 (z : Z) : Z := (z + 2 ^ 63) `mod` 2 ^ 64 - 2 ^ 63.

(** The process environment; [os.Getenv] answers the empty string for a
    variable that is not set. *)
Definition os_Getenv (env : gmap string string) (key : string) : string :=
  default EmptyString (env !! key).

Definition getEnv (env : gmap string string) (key defaultVal : string) : string :=
  let val := os_Getenv env key in
  if decide (val ≠ EmptyString) then val else defaultVal.

(** The flags given on the command line, after a [flag.Parse] that succeeded:
    [None] for a flag that was not given, which leaves its variable at the
    default it was declared with. *)
Record Flags := mkFlags {
  flag_id : option string;
  flag_password : option string;
  flag_interval : option string;
  flag_dse : option bool;
}.

Definition flag_Var {A} (given : option A) (value : A) : A :=
  default value given.

(** What [main] hands to the device and to the loop. *)
Record Config := mkConfig {
  useDSE : bool;
  intervalSec : Z;
  interval : Z;
}.

(** [useDSE] before [flag.Parse]: declared [false], then set from the
    environment. *)
Definition useDSE_env (env : gmap string string) : bool :=
  let useDSE := false in
  let v := os_Getenv env "SMARTMETER_DSE" in
  if decide (v ≠ "false" ∧ v ≠ "0") then true else useDSE.

(** [main] up to [go runScrapeLoop(...)]; [None] when it exits for want of an
    ID or a password.  [interval] is [time.Duration(intervalSec)*time.Second]. *)
Definition main_config (intSize : Z) (env : gmap string string) (flags : Flags)
  : option Config :=
  let bRouteID := getEnv env "SMARTMETER_ID" EmptyString in
  let bRoutePass := getEnv env "SMARTMETER_PASSWORD" EmptyString in
  let intervalStr := getEnv env "SMARTMETER_INTERVAL" "60" in
  let useDSE := useDSE_env env in
  let bRouteID := flag_Var (flag_id flags) bRouteID in
  let bRoutePass := flag_Var (flag_password flags) bRoutePass in
  let intervalStr := flag_Var (flag_interval flags) intervalStr in
  let useDSE := flag_Var (flag_dse flags) useDSE in
  if decide (bRouteID = EmptyString ∨ bRoutePass = EmptyString) then None
  else
    let intervalSec :=
      match strconv.Atoi intSize intervalStr with
      | None => 60
      | Some n => if n <? 10 then 60 else n
      end in
    Some (mkConfig useDSE intervalSec (wrap64 (intervalSec * time.Second))).

(** ** The rest of [main]: logger, verbosity and device options *)

(** [slog.Level] is an integer; a handler built with [Level: l] writes the
    records whose level is [l] or above. *)
Definition level_value (l : SlogLevel) : Z :=
  match l with
  | LevelDebug => -4
  | LevelInfo => 0
  | LevelWarn => 4
  | LevelError => 8
  end.

Definition handler_Enabled (minimum l : SlogLevel) : bool :=
  level_value minimum <=? level_value l.

(** [levelFromVerbosity]: the [switch] on the verbosity. *)
Definition levelFromVerbosity (verbosity : Z) : SlogLevel :=
  if verbosity <=? 0 then LevelError
  else if verbosity =? 1 then LevelInfo
  else LevelDebug.

Module strings.

Definition lower_byte (c : ascii) : ascii :=
  let n := N_of_ascii c in
  if ((65 <=? n) && (n <=? 90))%N then ascii_of_N (n + 32) else c.

(** [strings.ToLower] on a string of ASCII bytes: the upper-case letters are
    mapped to lower case and every other byte is kept.  (On other input Go
    maps Unicode letters; the statements that depend on the mapping ask for
    ASCII input.) *)
Fixpoint ToLower (s : string) : string :=
  match s with
  | EmptyString => EmptyString
  | String c rest => String (lower_byte c) (ToLower rest)
  end.

Definition is_ascii_byte (c : ascii) : bool := (N_of_ascii c <? 128)%N.

Fixpoint is_ascii (s : string) : bool :=
  match s with
  | EmptyString => true
  | String c rest => is_ascii_byte c && is_ascii rest
  end.

End strings.

(** [logFormat]: the lower-cased [SMARTMETER_LOG_FORMAT] when it is [json] or
    [text], and [text] otherwise. *)
Definition logFormat (env : gmap string string) : string :=
  let v := strings.ToLower (os_Getenv env "SMARTMETER_LOG_FORMAT") in
  if decide (v ≠ EmptyString) then
    if decide (v = "json" ∨ v = "text") then v else "text"
  else "text".

(** [slog.Attr], by its key and its printed value, and [dropTimeAttr]: the
    attribute under [slog.TimeKey] is replaced by the zero attribute, which a
    handler leaves out. *)
Record Attr := mkAttr {
  Key : string;
  Value : string;
}.

Definition TimeKey : string := "time".

Definition dropTimeAttr (groups : list string) (attr : Attr) : Attr :=
  if decide (Key attr = TimeKey) then mkAttr EmptyString EmptyString else attr.

(** The handler [newLogger] builds: its writer's format and its minimum
    level; both handlers replace attributes with [dropTimeAttr]. *)
Inductive HandlerKind := JSONHandler | TextHandler.

Record LoggerConfig := mkLoggerConfig {
  handler : HandlerKind;
  Level : SlogLevel;
}.

Definition newLogger (env : gmap string string) (verbosity : Z) : LoggerConfig :=
  let level := levelFromVerbosity verbosity in
  if decide (logFormat env = "json")
  then mkLoggerConfig JSONHandler level
  else mkLoggerConfig TextHandler level.

(** The options [main] passes to [smartmeter.Open]. *)
Module smartmeter.

Inductive Option :=
| ID (id : string)
| Password (password : string)
| DualStackSK (dse : bool)
| Verbosity (verbosity : Z)
| Logger
| RetryInterval (d : Z)
| Channel (channel : string)
| IPAddr (ipAddr : string).

End smartmeter.

(** All nine flags, as [Flags] above: [None] for a flag that was not given. *)
Record CommandLine := mkCommandLine {
  arg_id : option string;
  arg_password : option string;
  arg_device : option string;
  arg_interval : option string;
  arg_port : option string;
  arg_channel : option string;
  arg_ipaddr : option string;
  arg_dse : option bool;
  arg_verbosity : option Z;
}.

(** The four flags [main_config] reads. *)
Definition flags_of (args : CommandLine) : Flags :=
  mkFlags (arg_id args) (arg_password args) (arg_interval args) (arg_dse args).

(** [verbosity] before [flag.Parse]: declared [1], then set from the
    environment when the variable is set and is an integer. *)
Definition verbosity_env (intSize : Z) (env : gmap string string) : Z :=
  let verbosity := 1 in
  let v := os_Getenv env "SMARTMETER_VERBOSITY" in
  if decide (v ≠ EmptyString) then
    match strconv.Atoi intSize v with
    | Some i => i
    | None => verbosity
    end
  else verbosity.

(** What [main] has settled when it starts the loop and the server. *)
Record Setup := mkSetup {
  devicePath : string;
  smOpts : list smartmeter.Option;
  loopInterval : Z;
  listenPort : string;
  logger : LoggerConfig;
}.

(** [main] of the [log/slog] variant up to [go runScrapeLoop(...)], with the
    device that opens; [None] when it exits for want of an ID or a password. *)
Definition main_setup (intSize : Z) (env : gmap string string) (args : CommandLine)
  : option Setup :=
  let bRouteID := getEnv env "SMARTMETER_ID" EmptyString in
  let bRoutePass := getEnv env "SMARTMETER_PASSWORD" EmptyString in
  let devicePath := getEnv env "SMARTMETER_DEVICE" "/dev/ttyACM0" in
  let intervalStr := getEnv env "SMARTMETER_INTERVAL" "60" in
  let listenPort := getEnv env "SMARTMETER_PORT" "9102" in
  let channel := getEnv env "SMARTMETER_CHANNEL" EmptyString in
  let ipAddr := getEnv env "SMARTMETER_IPADDR" EmptyString in
  let useDSE := useDSE_env env in
  let verbosity := verbosity_env intSize env in
  let bRouteID := flag_Var (arg_id args) bRouteID in
  let bRoutePass := flag_Var (arg_password args) bRoutePass in
  let devicePath := flag_Var (arg_device args) devicePath in
  let intervalStr := flag_Var (arg_interval args) intervalStr in
  let listenPort := flag_Var (arg_port args) listenPort in
  let channel := flag_Var (arg_channel args) channel in
  let ipAddr := flag_Var (arg_ipaddr args) ipAddr in
  let useDSE := flag_Var (arg_dse args) useDSE in
  let verbosity := flag_Var (arg_verbosity args) verbosity in
  let logger := newLogger env verbosity in
  if decide (bRouteID = EmptyString ∨ bRoutePass = EmptyString) then None
  else
    let intervalSec :=
      match strconv.Atoi intSize intervalStr with
      | None => 60
      | Some n => if n <? 10 then 60 else n
      end in
    let smOpts :=
      [ smartmeter.ID bRouteID;
        smartmeter.Password bRoutePass;
        smartmeter.DualStackSK useDSE;
        smartmeter.Verbosity verbosity;
        smartmeter.Logger;
        smartmeter.RetryInterval (5 * time.Second) ] in
    let smOpts :=
      if decide (channel ≠ EmptyString)
      then smOpts ++ [smartmeter.Channel channel] else smOpts in
    let smOpts :=
      if decide (ipAddr ≠ EmptyString)
      then smOpts ++ [smartmeter.IPAddr ipAddr] else smOpts in
    Some (mkSetup devicePath smOpts (wrap64 (intervalSec * time.Second))
                  listenPort logger).

(** ** What a handler writes

    Of the events of a trace, the logger calls that reach the output when the
    handler's minimum level is [minimum].  The calls of the [log] variant
    have no level and are always written. *)
Section Output.
Context `{client : DeviceClient} `{clock : time.Clock}.

Definition written (minimum : SlogLevel) (e : Event) : bool :=
  match e with
  | EvLog (Slog l _ _) => handler_Enabled minimum l
  | EvLog _ => true
  | _ => false
  end.

Definition output (minimum : SlogLevel) (evs : list Event) : list Event :=
  filter (λ e, written minimum e = true) evs.

(** The time a list of events spends in [time.Sleep]. *)
Fixpoint slept (evs : list Event) : Z :=
  match evs with
  | [] => 0
  | EvSleep d :: rest => d + slept rest
  | _ :: rest => slept rest
  end.

(** The sum of the four error counters. *)
Definition errors_total (m : Metrics) : Z :=
  counter_value m errorTypeIPResolve + counter_value m errorTypeAuth
  + counter_value m errorTypeQuery + counter_value m errorTypeParse.

(** The clock as [scrape] hands it to [parseAndSetMetrics]: as the
    [time.Now()] that opens the cycle left it when the first query answers,
    and after both cooldowns when the answer is that of the second query. *)
Definition clock_at_decoder (w : World) : time.ClockState :=
  let c := (time.Now (clk w)).2 in
  match device_at_query w with
  | None => c
  | Some d0 =>
      match QueryEchonetLite d0 request 3 with
      | (inl _, _) => c
      | (inr _, _) =>
          time.Sleep postAuthCooldown (time.Sleep reAuthCooldown c)
      end
  end.

(** A response without the properties the decoder ignores. *)
Definition recognized_only (response : Frame) : Frame :=
  NewFrame (Class_ response) (ESV response)
           (filter (λ p, recognized p = true) (Properties response)).

(** A property with its payload cut to its first four bytes. *)
Definition first_four (p : Property) : Property :=
  NewProperty (EPC p) (take 4 (EDT p)).

End Output.

(** ** [runScrapeLoop], [log] variant

    The same loop around the [log] variant of [scrape]; it announces the
    first cycle with [Println]. *)
Section LogLoop.
Context `{client : DeviceClient} `{clock : time.Clock}.

Fixpoint scrape_log_times (n : nat) : Prog unit :=
  match n with
  | O => mret tt
  | S n' => scrape_log;; scrape_log_times n'
  end.

Definition runScrapeLoop_log (interval : Z) (ticks : nat) : Prog unit :=
  (if interval <=? 0 then panic NonPositiveTickerInterval else mret tt);;
  logger_Println "First scrape starting...";;
  scrape_log;;
  scrape_log_times ticks.

End LogLoop.

(** ** A scripted device and a manual clock

    The instance the closed statements below are evaluated on: ECHONET Lite's
    property codes [0xE7] and [0xE8], a device that answers each call with the
    next reply of a script, and a clock that moves only when the program
    sleeps. *)
Module Example.

#[export] Instance echonet : Echonet := {|
  EPCType := byte;
  ClassGroupCode := Z;
  ESVType := byte;
  LvSmartElectricEnergyMeter := 0x0288;
  Get := Byte.x62;
  LvSmartElectricEnergyMeter_InstantaneousElectricPower := Byte.xe7;
  LvSmartElectricEnergyMeter_InstantaneousCurrent := Byte.xe8;
  EPC_distinct := ltac:(discriminate);
|}.

Inductive Reply :=
| ReplyIP (r : string + error)
| ReplyAuth (r : option error)
| ReplyQuery (r : Frame + error).

#[export] Instance scripted : DeviceClient := {|
  DevState := list Reply;
  GetNeibourIP d :=
    match priv d with
    | ReplyIP r :: rest => (r, mkDevice (IPAddr d) rest)
    | _ => (inr "script", d)
    end;
  Authenticate d :=
    match priv d with
    | ReplyAuth r :: rest => (r, mkDevice (IPAddr d) rest)
    | _ => (Some "script", d)
    end;
  QueryEchonetLite d _ _ :=
    match priv d with
    | ReplyQuery r :: rest => (r, mkDevice (IPAddr d) rest)
    | _ => (inr "script", d)
    end;
|}.

#[export] Instance manual : time.Clock := {|
  time.ClockState := Z;
  time.Now c := (c, c);
  time.Sleep d c := c + d;
|}.

(** A client like [scripted], but for an authentication that fails: it
    leaves the device without its address. *)
Definition forgetful : DeviceClient := {|
  DevState := list Reply;
  GetNeibourIP d :=
    match priv d with
    | ReplyIP r :: rest => (r, mkDevice (IPAddr d) rest)
    | _ => (inr "script", d)
    end;
  Authenticate d :=
    match priv d with
    | ReplyAuth (Some err) :: rest => (Some err, mkDevice EmptyString rest)
    | ReplyAuth None :: rest => (None, mkDevice (IPAddr d) rest)
    | _ => (Some "script", d)
    end;
  QueryEchonetLite d _ _ :=
    match priv d with
    | ReplyQuery r :: rest => (r, mkDevice (IPAddr d) rest)
    | _ => (inr "script", d)
    end;
|}.

Definition forgetful_world (ip : string) (script : list Reply) (t : Z)
  : @World echonet forgetful manual :=
  @mkWorld echonet forgetful manual (mkDevice ip script) t metrics_init [].

(** A world at wall-clock time [t] whose device holds [ip] and [script]. *)
Definition world (ip : string) (script : list Reply) (t : Z) : World :=
  mkWorld (mkDevice ip script) t metrics_init [].

(** The response of the specification's end-to-end scenario. *)
Definition power_1200 : Property :=
  NewProperty Byte.xe7 [Byte.x00; Byte.x00; Byte.x04; Byte.xb0].

Definition current_10_5 : Property :=
  NewProperty Byte.xe8 [Byte.x00; Byte.x64; Byte.x00; Byte.x32].

Definition response_1200W : Frame :=
  NewFrame 0x0288 Byte.x72 [power_1200; current_10_5].

(** A response whose power property carries two bytes. *)
Definition response_short : Frame :=
  NewFrame 0x0288 Byte.x72 [ NewProperty Byte.xe7 [Byte.x04; Byte.xb0] ].

(** A response of two properties the decoder does not know. *)
Definition response_unknown : Frame :=
  NewFrame 0x0288 Byte.x72
    [ NewProperty Byte.xe0 [Byte.x00; Byte.x01; Byte.xe2; Byte.x40];
      NewProperty Byte.xd3 [Byte.x00; Byte.x00; Byte.x00; Byte.x01] ].

(** An environment with an ID and a password and nothing else, one that also
    sets an interval of 18446744074 seconds, and a command line without
    flags. *)
Definition env_plain : gmap string string :=
  <["SMARTMETER_ID" := "id"]> (<["SMARTMETER_PASSWORD" := "pw"]> ∅).

Definition env_overflow : gmap string string :=
  <["SMARTMETER_INTERVAL" := "18446744074"]> env_plain.

Definition no_flags : Flags := mkFlags None None None None.

Definition no_args : CommandLine :=
  mkCommandLine None None None None None None None None None.

(** A response with the power property alone, and one whose current property
    carries two bytes after a power property of four. *)
Definition response_power_only : Frame :=
  NewFrame 0x0288 Byte.x72 [power_1200].

Definition current_short : Property :=
  NewProperty Byte.xe8 [Byte.x00; Byte.x64].

Definition response_short_current : Frame :=
  NewFrame 0x0288 Byte.x72 [power_1200; current_short].

End Example.

Import Example.

(** * Theorems *)

(** ** Bytes and numerals *)

Lemma byte_val_range (b : byte) : 0 <= byte_val b < 256.
Proof.
  unfold byte_val. pose proof (Byte.to_N_bounded b) as Hb. lia.
Qed.

(** Placing [hi] above the [k] low bits of [lo] adds the two numbers. *)
Lemma lor_shiftl_add lo hi k :
  0 <= k → 0 <= lo < 2 ^ k → Z.lor lo (Z.shiftl hi k) = lo + hi * 2 ^ k.
Proof.
  intros Hk Hlo.
  rewrite <- (Z.shiftl_mul_pow2 hi k Hk), <- Z.add_lor_land.
  assert (Z.land lo (Z.shiftl hi k) = 0) as ->; [|lia].
  apply Z.bits_inj'. intros n Hn.
  rewrite Z.land_spec, Z.bits_0.
  destruct (Z.lt_ge_cases n k) as [Hlt|Hge].
  - rewrite (Z.shiftl_spec_low hi k n Hlt). apply andb_false_r.
  - rewrite <- (Z.mod_small lo (2 ^ k)) by lia.
    rewrite Z.mod_pow2_bits_high by lia. reflexivity.
Qed.

Lemma be_value_2 b0 b1 : be_value [b0; b1] = byte_val b0 * 2 ^ 8 + byte_val b1.
Proof. unfold be_value. simpl. lia. Qed.

Lemma be_value_4 b0 b1 b2 b3 :
  be_value [b0; b1; b2; b3]
  = byte_val b0 * 2 ^ 24 + byte_val b1 * 2 ^ 16 + byte_val b2 * 2 ^ 8 + byte_val b3.
Proof. unfold be_value. simpl. lia. Qed.

Lemma be_value_2_range b0 b1 : 0 <= be_value [b0; b1] < 2 ^ 16.
Proof.
  rewrite be_value_2.
  pose proof (byte_val_range b0). pose proof (byte_val_range b1). lia.
Qed.

Lemma be_value_4_range b0 b1 b2 b3 : 0 <= be_value [b0; b1; b2; b3] < 2 ^ 32.
Proof.
  rewrite be_value_4.
  pose proof (byte_val_range b0). pose proof (byte_val_range b1).
  pose proof (byte_val_range b2). pose proof (byte_val_range b3). lia.
Qed.

(** [BigEndian.Uint16] reads the first two bytes as a numeral. *)
Lemma BigEndian_Uint16_value b0 b1 rest :
  binary.BigEndian_Uint16 (b0 :: b1 :: rest) = Some (be_value [b0; b1]).
Proof.
  unfold binary.BigEndian_Uint16. f_equal.
  pose proof (byte_val_range b1).
  rewrite lor_shiftl_add, be_value_2 by lia. lia.
Qed.

(** [BigEndian.Uint32] reads the first four bytes as a numeral. *)
Lemma BigEndian_Uint32_value b0 b1 b2 b3 rest :
  binary.BigEndian_Uint32 (b0 :: b1 :: b2 :: b3 :: rest)
  = Some (be_value [b0; b1; b2; b3]).
Proof.
  unfold binary.BigEndian_Uint32. f_equal.
  pose proof (byte_val_range b0). pose proof (byte_val_range b1).
  pose proof (byte_val_range b2). pose proof (byte_val_range b3).
  rewrite (lor_shiftl_add (byte_val b3)) by lia.
  rewrite (lor_shiftl_add (_ + _)) by lia.
  rewrite (lor_shiftl_add (_ + _)) by lia.
  rewrite be_value_4. lia.
Qed.

Lemma BigEndian_Uint16_short (b : list byte) :
  (length b < 2)%nat → binary.BigEndian_Uint16 b = None.
Proof. destruct b as [|? [|? ?]]; simpl; intros; [done|done|lia]. Qed.

Lemma BigEndian_Uint32_short (b : list byte) :
  (length b < 4)%nat → binary.BigEndian_Uint32 b = None.
Proof.
  destruct b as [|? [|? [|? [|? ?]]]]; simpl; intros; try done. lia.
Qed.

(** A slice of four bytes or more, by its first four elements. *)
Lemma four_bytes (b : list byte) :
  (4 <= length b)%nat → ∃ b0 b1 b2 b3 rest, b = b0 :: b1 :: b2 :: b3 :: rest.
Proof.
  destruct b as [|b0 [|b1 [|b2 [|b3 rest]]]]; simpl; intros; try lia.
  by exists b0, b1, b2, b3, rest.
Qed.

(** ** [float64] of an integer below [2^53] is that integer *)

Lemma iter_xO_spec p k :
  digits2_pos (Pos.iter xO p k) = (digits2_pos p + k)%positive ∧
  Zpos (Pos.iter xO p k) = Zpos p * 2 ^ Zpos k.
Proof.
  apply (Pos.iter_ind _ xO p
           (λ k a, digits2_pos a = (digits2_pos p + k)%positive ∧
                   Zpos a = Zpos p * 2 ^ Zpos k)).
  - split; [simpl; lia | rewrite Z.pow_1_r; lia].
  - intros k' a [Hd Hv]. split.
    + simpl. rewrite Hd. lia.
    + rewrite Pos2Z.inj_succ, Z.pow_succ_r by lia.
      change (Zpos a~0) with (2 * Zpos a). rewrite Hv. ring.
Qed.

Lemma digits2_pos_bound p :
  ∀ n, 0 <= n → Zpos p < 2 ^ n → Zpos (digits2_pos p) <= n.
Proof.
  induction p as [p IH|p IH|]; intros n Hn Hlt; simpl.
  - assert (n ≠ 0) by (intros ->; simpl in Hlt; lia).
    replace n with (Z.succ (n - 1)) in Hlt by lia.
    rewrite Z.pow_succ_r in Hlt by lia.
    specialize (IH (n - 1)). lia.
  - assert (n ≠ 0) by (intros ->; simpl in Hlt; lia).
    replace n with (Z.succ (n - 1)) in Hlt by lia.
    rewrite Z.pow_succ_r in Hlt by lia.
    specialize (IH (n - 1)). lia.
  - assert (n ≠ 0) by (intros ->; simpl in Hlt; lia). lia.
Qed.

(** Rounding leaves a mantissa of full width alone. *)
Lemma binary_round_aux_canonical m e :
  Zpos (digits2_pos m) = 53 → -1074 <= e <= 971 →
  binary_round_aux prec emax false (Zpos m) e loc_Exact = S754_finite false m e.
Proof.
  intros Hd He.
  unfold binary_round_aux, shr_fexp, fexp, Zdigits2, SpecFloat.emin, prec, emax.
  rewrite Hd.
  replace (Z.max (53 + e - 53) (3 - 1024 - 53) - e) with 0 by lia.
  cbn [shr shr_record_of_loc shr_m loc_of_shr_record round_nearest_even].
  rewrite Hd.
  replace (Z.max (53 + e - 53) (3 - 1024 - 53) - e) with 0 by lia.
  cbn [shr shr_record_of_loc shr_m].
  destruct (Z.leb_spec e (1024 - 53)); [reflexivity | lia].
Qed.

Lemma binary_normalize_exact p :
  Zpos p < 2 ^ 53 →
  ∃ m e,
    binary_normalize prec emax (Zpos p) 0 false = S754_finite false m e ∧
    -52 <= e <= 0 ∧ Zpos (digits2_pos m) = 53 ∧ Zpos m = Zpos p * 2 ^ (- e).
Proof.
  intros Hp.
  pose proof (digits2_pos_bound p 53 ltac:(lia) Hp) as Hd.
  unfold binary_normalize, binary_round, shl_align, fexp, SpecFloat.emin, prec, emax.
  set (d := Zpos (digits2_pos p)) in *.
  assert (1 <= d) by (subst d; lia).
  replace (Z.max (d + 0 - 53) (3 - 1024 - 53) - 0) with (d - 53) by lia.
  replace (Z.max (d + 0 - 53) (3 - 1024 - 53)) with (d - 53) by lia.
  destruct (d - 53) as [|q|q] eqn:E; [|lia|].
  - exists p, 0. split; [apply binary_round_aux_canonical; subst d; lia|].
    split; [lia|]. split; [subst d; lia|]. simpl. lia.
  - destruct (iter_xO_spec p q) as [Hd' Hv].
    exists (Pos.iter xO p q), (Z.neg q).
    split; [apply binary_round_aux_canonical; [rewrite Hd'|]; subst d; lia|].
    split; [lia|]. split; [rewrite Hd'; subst d; lia|].
    rewrite Hv. reflexivity.
Qed.

(** The conversion is exact on every integer a [uint32] or [uint16] holds. *)
Lemma of_int_exact z :
  0 <= z < 2 ^ 53 → Float64.int_value (Float64.of_int z) = Some z.
Proof.
  intros Hz. destruct z as [|p|p]; [reflexivity| |lia].
  destruct (binary_normalize_exact p) as (m & e & Hn & He & Hd & Hv); [lia|].
  unfold Float64.int_value, Float64.of_int. rewrite Hn.
  rewrite Prim2SF_SF2Prim.
  2:{ unfold valid_binary, bounded, canonical_mantissa, fexp, SpecFloat.emin, prec, emax.
      rewrite Hd. apply andb_true_intro. split.
      - apply Z.eqb_eq. lia.
      - apply Z.leb_le. lia. }
  assert (0 < 2 ^ (- e)) by (apply Z.pow_pos_nonneg; lia).
  destruct (Z.leb_spec 0 e).
  - assert (e = 0) as -> by lia. simpl in *. f_equal. lia.
  - rewrite Hv, Z.mod_mul by lia. rewrite Z.eqb_refl.
    rewrite Z.div_mul by lia. reflexivity.
Qed.

(** ** The decoder *)

(** Unfolds the monad's plumbing in the goal. *)
Ltac prog_unfold :=
  cbv [mbind mret Prog_bind Prog_ret prog_bind prog_ret checked panic modify
       modify_metrics call emit powerGauge_Set currentGauge_Set
       lastSuccessGauge_Set scrapeDuration_Observe scrapeErrors_Inc
       with_metrics].

Section DecoderFacts.
Context `{client : DeviceClient} `{clock : time.Clock}.

Lemma recognized_power (p : Property) :
  EPC p = LvSmartElectricEnergyMeter_InstantaneousElectricPower → recognized p = true.
Proof. intros Hp. unfold recognized. by rewrite bool_decide_eq_true_2. Qed.

Lemma recognized_current (p : Property) :
  EPC p = LvSmartElectricEnergyMeter_InstantaneousCurrent → recognized p = true.
Proof.
  intros Hp. unfold recognized.
  rewrite (bool_decide_eq_true_2 (EPC p = LvSmartElectricEnergyMeter_InstantaneousCurrent)) by done.
  apply orb_true_r.
Qed.

Lemma not_recognized (p : Property) :
  recognized p = false →
  EPC p ≠ LvSmartElectricEnergyMeter_InstantaneousElectricPower ∧
  EPC p ≠ LvSmartElectricEnergyMeter_InstantaneousCurrent.
Proof.
  unfold recognized. intros [H1 H2]%orb_false_elim.
  by apply bool_decide_eq_false in H1, H2.
Qed.

(** One turn of the loop on a power property of four bytes or more. *)
Lemma loop_power (p : Property) rest found (w : World) :
  EPC p = LvSmartElectricEnergyMeter_InstantaneousElectricPower →
  (4 <= length (EDT p))%nat →
  parseAndSetMetrics_loop (p :: rest) found w
  = parseAndSetMetrics_loop rest true (with_metrics w (decode_property (metrics w) p)).
Proof.
  intros Hp (b0 & b1 & b2 & b3 & tl & Hb)%four_bytes.
  unfold decode_property. simpl.
  rewrite !decide_True by done.
  rewrite Hb, BigEndian_Uint32_value. reflexivity.
Qed.

(** One turn of the loop on a current property of four bytes or more. *)
Lemma loop_current (p : Property) rest found (w : World) :
  EPC p = LvSmartElectricEnergyMeter_InstantaneousCurrent →
  (4 <= length (EDT p))%nat →
  parseAndSetMetrics_loop (p :: rest) found w
  = parseAndSetMetrics_loop rest true (with_metrics w (decode_property (metrics w) p)).
Proof.
  intros Hp (b0 & b1 & b2 & b3 & tl & Hb)%four_bytes.
  assert (EPC p ≠ LvSmartElectricEnergyMeter_InstantaneousElectricPower) as Hne.
  { rewrite Hp. intros Heq. by apply EPC_distinct. }
  unfold decode_property. simpl.
  rewrite !(decide_False (P := EPC p = LvSmartElectricEnergyMeter_InstantaneousElectricPower)) by done.
  rewrite !decide_True by done.
  rewrite Hb. simpl. prog_unfold.
  rewrite !BigEndian_Uint16_value. reflexivity.
Qed.

(** One turn of the loop on a property it does not recognize. *)
Lemma loop_other (p : Property) rest found (w : World) :
  recognized p = false →
  parseAndSetMetrics_loop (p :: rest) found w
  = parseAndSetMetrics_loop rest found w.
Proof.
  intros [H1 H2]%not_recognized. simpl.
  by rewrite !decide_False by done.
Qed.

Lemma with_metrics_id (w : World) : with_metrics w (metrics w) = w.
Proof. by destruct w. Qed.

Lemma decode_property_other m (p : Property) :
  recognized p = false → decode_property m p = m.
Proof.
  intros [H1 H2]%not_recognized. unfold decode_property.
  by rewrite !decide_False by done.
Qed.

(** Past properties it can read, the loop goes on with the flag and the
    registry the specification's decoder computes. *)
Lemma loop_app_well_sized (ps : list Property) :
  forallb well_sized ps = true →
  ∀ rest found (w : World),
    parseAndSetMetrics_loop (ps ++ rest) found w
    = parseAndSetMetrics_loop rest (found || existsb recognized ps)
        (with_metrics w (decode (metrics w) ps)).
Proof.
  induction ps as [|p ps IH]; intros Hall rest found w.
  - cbn [app existsb decode foldl]. by rewrite orb_false_r, with_metrics_id.
  - simpl in Hall. apply andb_prop in Hall as [Hp Hps].
    unfold well_sized in Hp. rewrite <- app_comm_cons.
    destruct (recognized p) eqn:Hrec; cbn [negb orb] in Hp.
    + apply Nat.leb_le in Hp.
      assert (parseAndSetMetrics_loop (p :: ps ++ rest) found w
              = parseAndSetMetrics_loop (ps ++ rest) true
                  (with_metrics w (decode_property (metrics w) p))) as ->.
      { unfold recognized in Hrec. apply orb_prop in Hrec as [Hx|Hx];
          apply bool_decide_eq_true in Hx;
          [by apply loop_power | by apply loop_current]. }
      rewrite IH by done. cbn [existsb]. rewrite Hrec, orb_true_r. reflexivity.
    + rewrite loop_other, IH by done.
      cbn [existsb decode foldl]. rewrite Hrec, decode_property_other by done.
      reflexivity.
Qed.

(** On properties it can read, the loop returns. *)
Lemma loop_well_sized (ps : list Property) :
  forallb well_sized ps = true →
  ∀ found (w : World),
    parseAndSetMetrics_loop ps found w
    = Returned (found || existsb recognized ps)
               (with_metrics w (decode (metrics w) ps)).
Proof.
  intros Hall found w.
  rewrite <- (app_nil_r ps) at 1. by rewrite loop_app_well_sized.
Qed.

(** The turn of a power property of four bytes, wherever it stands after
    properties the decoder can read: the loop goes on with the power gauge at
    [float64] of the numeral, whatever follows. *)
Lemma power_property_sets_gauge pre (p : Property) post found (w : World) :
  EPC p = LvSmartElectricEnergyMeter_InstantaneousElectricPower →
  length (EDT p) = 4%nat →
  forallb well_sized pre = true →
  ∃ w1,
    parseAndSetMetrics_loop (pre ++ p :: post) found w
    = parseAndSetMetrics_loop post true w1 ∧
    powerGauge (metrics w1) = Float64.of_int (be_value (EDT p)).
Proof.
  intros Hp Hlen Hpre. eexists. split.
  - rewrite loop_app_well_sized, loop_power by (done || lia). reflexivity.
  - cbn. unfold decode_property. rewrite decide_True by done.
    cbn. by rewrite <- Hlen, firstn_all.
Qed.

(** The turn of a current property of four bytes, likewise. *)
Lemma current_property_sets_gauges pre (p : Property) post found (w : World) :
  EPC p = LvSmartElectricEnergyMeter_InstantaneousCurrent →
  length (EDT p) = 4%nat →
  forallb well_sized pre = true →
  ∃ w1,
    parseAndSetMetrics_loop (pre ++ p :: post) found w
    = parseAndSetMetrics_loop post true w1 ∧
    currentGauge (metrics w1) !! "r"
    = Some (Float64.of_int (be_value (take 2 (EDT p))) / 10)%float ∧
    currentGauge (metrics w1) !! "t"
    = Some (Float64.of_int (be_value (drop 2 (EDT p))) / 10)%float.
Proof.
  intros Hp Hlen Hpre.
  assert (EPC p ≠ LvSmartElectricEnergyMeter_InstantaneousElectricPower) as Hne.
  { rewrite Hp. intros Heq. by apply EPC_distinct. }
  eexists. split.
  - rewrite loop_app_well_sized, loop_current by (done || lia). reflexivity.
  - cbn. unfold decode_property. rewrite decide_False, decide_True by done.
    cbn. rewrite lookup_insert_ne, !lookup_insert_eq by done.
    destruct (EDT p) as [|b0 [|b1 [|b2 [|b3 [|? ?]]]]]; done.
Qed.

(** A recognized property of fewer than four bytes makes its turn panic. *)
Lemma loop_short (p : Property) rest found (w : World) :
  recognized p = true → (length (EDT p) < 4)%nat →
  ∃ r, parseAndSetMetrics_loop (p :: rest) found w = Panicked r w.
Proof.
  intros Hrec Hlen. simpl.
  destruct (decide (EPC p = LvSmartElectricEnergyMeter_InstantaneousElectricPower)) as [Hp|Hp].
  - rewrite BigEndian_Uint32_short by done. by eexists.
  - unfold recognized in Hrec.
    rewrite (bool_decide_eq_false_2 _ Hp) in Hrec. simpl in Hrec.
    apply bool_decide_eq_true in Hrec. rewrite decide_True by done.
    destruct (EDT p) as [|b0 [|b1 [|b2 [|b3 tl]]]]; simpl in Hlen; try lia;
      by eexists.
Qed.

(** The loop returns exactly when every property is one it can read. *)
Lemma loop_returns (ps : list Property) :
  ∀ found (w : World),
    returns (parseAndSetMetrics_loop ps found w) = forallb well_sized ps.
Proof.
  induction ps as [|p ps IH]; intros found w; [done|].
  cbn [forallb]. unfold well_sized at 1.
  destruct (recognized p) eqn:Hrec; cbn [negb orb].
  - destruct (Nat.leb_spec 4 (length (EDT p))) as [Hlen|Hlen].
    + assert (parseAndSetMetrics_loop (p :: ps) found w
              = parseAndSetMetrics_loop ps true
                  (with_metrics w (decode_property (metrics w) p))) as ->.
      { unfold recognized in Hrec. apply orb_prop in Hrec as [Hx|Hx];
          apply bool_decide_eq_true in Hx;
          [by apply loop_power | by apply loop_current]. }
      by rewrite IH.
    + destruct (loop_short p ps found w Hrec Hlen) as [r ->]. reflexivity.
  - by rewrite loop_other, IH.
Qed.

Lemma decode_app m (ps qs : list Property) :
  decode m (ps ++ qs) = decode (decode m ps) qs.
Proof. apply foldl_app. Qed.

Lemma decode_unrecognized m (ps : list Property) :
  existsb recognized ps = false → decode m ps = m.
Proof.
  induction ps as [|p ps IH]; [done|].
  cbn [existsb]. intros [Hp Hps]%orb_false_elim.
  cbn [decode foldl]. rewrite decode_property_other by done. by apply IH.
Qed.

Lemma unrecognized_well_sized (ps : list Property) :
  existsb recognized ps = false → forallb well_sized ps = true.
Proof.
  induction ps as [|p ps IH]; [done|].
  cbn [existsb forallb]. intros [Hp Hps]%orb_false_elim.
  unfold well_sized at 1. rewrite Hp. by rewrite IH.
Qed.

(** Later properties that are not power properties leave the power gauge. *)
Lemma decode_keeps_power (ps : list Property) :
  ∀ m,
    Forall (λ q, EPC q ≠ LvSmartElectricEnergyMeter_InstantaneousElectricPower) ps →
    powerGauge (decode m ps) = powerGauge m.
Proof.
  induction ps as [|p ps IH]; intros m Hall; [done|].
  inversion Hall as [|? ? Hp Hps]; subst.
  cbn [decode foldl]. fold (decode (decode_property m p) ps).
  rewrite IH by done. unfold decode_property.
  rewrite decide_False by done. by destruct (decide _).
Qed.

(** Later properties that are not current properties leave both current
    gauges. *)
Lemma decode_keeps_current (ps : list Property) :
  ∀ m,
    Forall (λ q, EPC q ≠ LvSmartElectricEnergyMeter_InstantaneousCurrent) ps →
    currentGauge (decode m ps) = currentGauge m.
Proof.
  induction ps as [|p ps IH]; intros m Hall; [done|].
  inversion Hall as [|? ? Hp Hps]; subst.
  cbn [decode foldl]. fold (decode (decode_property m p) ps).
  rewrite IH by done. unfold decode_property.
  destruct (decide _); [done|]. by rewrite decide_False by done.
Qed.

(** [parseAndSetMetrics] on a response whose properties it can read: it
    returns, having stamped the success or counted a parse failure. *)
Lemma parseAndSetMetrics_well_sized (response : Frame) (w : World) :
  forallb well_sized (Properties response) = true →
  parseAndSetMetrics response w =
    let m := decode (metrics w) (Properties response) in
    if existsb recognized (Properties response) then
      Returned tt
        (mkWorld (dev w) (time.Now (clk w)).2
           (mkMetrics (powerGauge m) (currentGauge m)
              (Float64.of_int (time.Unix (time.Now (clk w)).1))
              (scrapeDuration m) (scrapeErrors m))
           (trace w ++ [EvLog (Slog LevelDebug "Scrape successful" [])]))
    else
      Returned tt
        (mkWorld (dev w) (clk w)
           (mkMetrics (powerGauge m) (currentGauge m) (lastSuccessGauge m)
              (scrapeDuration m)
              (<[errorTypeParse := counter_value m errorTypeParse + 1]>
                 (scrapeErrors m)))
           (trace w ++ [EvLog (Slog LevelWarn
                                 "Response contained no recognized properties" [])])).
Proof.
  intros Hall. unfold parseAndSetMetrics.
  unfold mbind at 1, Prog_bind, prog_bind.
  rewrite loop_well_sized by done. cbn [orb].
  destruct (existsb recognized (Properties response)).
  - unfold time_Now, logger_Debug. prog_unfold. cbn.
    by destruct (time.Now (clk w)).
  - reflexivity.
Qed.

(** C2.  A power property of four bytes [b], in a response whose properties
    the decoder can read and in which no later property is a power property:
    [parseAndSetMetrics] returns with the power gauge at [float64] of the
    big-endian numeral [b], and that [float64] denotes the numeral itself, an
    integer below [2^32] to which nothing was applied. *)
Theorem power_reading_is_uint32 (response : Frame) pre (p : Property) post (w : World) :
  Properties response = pre ++ p :: post →
  EPC p = LvSmartElectricEnergyMeter_InstantaneousElectricPower →
  length (EDT p) = 4%nat →
  forallb well_sized pre = true →
  forallb well_sized post = true →
  Forall (λ q, EPC q ≠ LvSmartElectricEnergyMeter_InstantaneousElectricPower) post →
  ∃ w',
    parseAndSetMetrics response w = Returned tt w' ∧
    binary.BigEndian_Uint32 (EDT p) = Some (be_value (EDT p)) ∧
    powerGauge (metrics w') = Float64.of_int (be_value (EDT p)) ∧
    Float64.int_value (powerGauge (metrics w')) = Some (be_value (EDT p)) ∧
    0 <= be_value (EDT p) < 2 ^ 32.
Proof.
  intros Hps Hp Hlen Hpre Hpost Hlater.
  assert (well_sized p = true) as Hwp.
  { unfold well_sized. rewrite Hlen. apply orb_true_r. }
  assert (forallb well_sized (Properties response) = true) as Hall.
  { rewrite Hps, forallb_app. cbn [forallb]. by rewrite Hpre, Hwp, Hpost. }
  assert (existsb recognized (Properties response) = true) as Hex.
  { rewrite Hps, existsb_app. cbn [existsb].
    rewrite (recognized_power p Hp). by rewrite orb_true_r. }
  destruct (EDT p) as [|b0 [|b1 [|b2 [|b3 [|? ?]]]]] eqn:Hb; try discriminate.
  pose proof (be_value_4_range b0 b1 b2 b3) as Hrange.
  assert (powerGauge (decode (metrics w) (Properties response))
          = Float64.of_int (be_value [b0; b1; b2; b3])) as Hgauge.
  { rewrite Hps, decode_app. cbn [decode foldl].
    fold (decode (decode_property (decode (metrics w) pre) p) post).
    rewrite decode_keeps_power by done.
    unfold decode_property. rewrite decide_True by done. by rewrite Hb. }
  eexists. split.
  { rewrite parseAndSetMetrics_well_sized by done. cbv zeta. rewrite Hex. reflexivity. }
  cbn [metrics powerGauge]. rewrite Hgauge.
  split; [apply BigEndian_Uint32_value|].
  split; [done|]. split; [apply of_int_exact; lia | done].
Qed.

(** C3.  A current property of four bytes [b], in a response whose properties
    the decoder can read and in which no later property is a current
    property: [parseAndSetMetrics] returns with the gauge of phase [r] at
    [float64] of the numeral [b[0:2]] divided by [10.0], and the gauge of
    phase [t] at [float64] of the numeral [b[2:4]] divided by [10.0]; both
    conversions are exact. *)
Theorem current_readings_are_tenths (response : Frame) pre (p : Property) post (w : World) :
  Properties response = pre ++ p :: post →
  EPC p = LvSmartElectricEnergyMeter_InstantaneousCurrent →
  length (EDT p) = 4%nat →
  forallb well_sized pre = true →
  forallb well_sized post = true →
  Forall (λ q, EPC q ≠ LvSmartElectricEnergyMeter_InstantaneousCurrent) post →
  let ur := be_value (take 2 (EDT p)) in
  let ut := be_value (drop 2 (EDT p)) in
  ∃ w',
    parseAndSetMetrics response w = Returned tt w' ∧
    binary.BigEndian_Uint16 (take 2 (EDT p)) = Some ur ∧
    binary.BigEndian_Uint16 (drop 2 (EDT p)) = Some ut ∧
    currentGauge (metrics w') !! "r" = Some (Float64.of_int ur / 10)%float ∧
    currentGauge (metrics w') !! "t" = Some (Float64.of_int ut / 10)%float ∧
    Float64.int_value (Float64.of_int ur) = Some ur ∧
    Float64.int_value (Float64.of_int ut) = Some ut ∧
    0 <= ur < 2 ^ 16 ∧ 0 <= ut < 2 ^ 16.
Proof.
  intros Hps Hp Hlen Hpre Hpost Hlater ur ut.
  assert (EPC p ≠ LvSmartElectricEnergyMeter_InstantaneousElectricPower) as Hne.
  { rewrite Hp. intros Heq. by apply EPC_distinct. }
  assert (well_sized p = true) as Hwp.
  { unfold well_sized. rewrite Hlen. apply orb_true_r. }
  assert (forallb well_sized (Properties response) = true) as Hall.
  { rewrite Hps, forallb_app. cbn [forallb]. by rewrite Hpre, Hwp, Hpost. }
  assert (existsb recognized (Properties response) = true) as Hex.
  { rewrite Hps, existsb_app. cbn [existsb].
    rewrite (recognized_current p Hp). by rewrite orb_true_r. }
  destruct (EDT p) as [|b0 [|b1 [|b2 [|b3 [|? ?]]]]] eqn:Hb; try discriminate.
  subst ur ut. cbn [take drop].
  pose proof (be_value_2_range b0 b1) as Hr.
  pose proof (be_value_2_range b2 b3) as Ht.
  assert (currentGauge (decode (metrics w) (Properties response))
          = <["t" := (Float64.of_int (be_value [b2; b3]) / 10)%float]>
              (<["r" := (Float64.of_int (be_value [b0; b1]) / 10)%float]>
                 (currentGauge (decode (metrics w) pre)))) as Hgauge.
  { rewrite Hps, decode_app. cbn [decode foldl].
    fold (decode (decode_property (decode (metrics w) pre) p) post).
    rewrite decode_keeps_current by done.
    unfold decode_property.
    rewrite decide_False, decide_True by done. by rewrite Hb. }
  eexists. split.
  { rewrite parseAndSetMetrics_well_sized by done. cbv zeta. rewrite Hex. reflexivity. }
  cbn [metrics currentGauge]. rewrite Hgauge.
  split; [apply BigEndian_Uint16_value|].
  split; [apply BigEndian_Uint16_value|].
  split; [by rewrite lookup_insert_ne, lookup_insert_eq|].
  split; [by rewrite lookup_insert_eq|].
  split; [apply of_int_exact; lia|].
  split; [apply of_int_exact; lia|done].
Qed.

(** At the decoder: on a response with no recognized property, however many
    others it holds, [parseAndSetMetrics] returns having counted one parse
    error and nothing else: the power gauge, both current gauges and the
    last-success stamp are as before. *)
Lemma parse_failure_at_decoder (response : Frame) (w : World) :
  existsb recognized (Properties response) = false →
  ∃ w',
    parseAndSetMetrics response w = Returned tt w' ∧
    scrapeErrors (metrics w')
    = <[errorTypeParse := counter_value (metrics w) errorTypeParse + 1]>
        (scrapeErrors (metrics w)) ∧
    powerGauge (metrics w') = powerGauge (metrics w) ∧
    currentGauge (metrics w') = currentGauge (metrics w) ∧
    lastSuccessGauge (metrics w') = lastSuccessGauge (metrics w) ∧
    scrapeDuration (metrics w') = scrapeDuration (metrics w) ∧
    dev w' = dev w ∧ clk w' = clk w.
Proof.
  intros Hnone. eexists. split.
  { rewrite parseAndSetMetrics_well_sized by by apply unrecognized_well_sized.
    cbv zeta. rewrite Hnone, decode_unrecognized by done. reflexivity. }
  done.
Qed.

End DecoderFacts.

(** ** One cycle *)

Section CycleFacts.
Context `{client : DeviceClient} `{clock : time.Clock}.

(** The resolution block, by cases on the address held and on the answer. *)
Lemma scrape_resolve_eq (w : World) :
  scrape_resolve w =
    if decide (IPAddr (dev w) = EmptyString) then
      match GetNeibourIP (dev w) with
      | (inr err, d) =>
          Returned Return
            (mkWorld d (clk w)
               (mkMetrics (powerGauge (metrics w)) (currentGauge (metrics w))
                  (lastSuccessGauge (metrics w)) (scrapeDuration (metrics w))
                  (<[errorTypeIPResolve := counter_value (metrics w) errorTypeIPResolve + 1]>
                     (scrapeErrors (metrics w))))
               ((trace w ++ [EvGetNeibourIP])
                ++ [EvLog (Slog LevelWarn "Failed to scan neighbor IP"
                             [("error", ArgError err)])]))
      | (inl ipAddr, d) =>
          Returned (Next tt)
            (mkWorld (mkDevice ipAddr (priv d)) (clk w) (metrics w)
               (trace w ++ [EvGetNeibourIP]))
      end
    else Returned (Next tt) w.
Proof.
  unfold scrape_resolve, dev_IPAddr, dev_GetNeibourIP, set_dev_IPAddr, logger_Warn.
  prog_unfold. cbn.
  destruct (decide (IPAddr (dev w) = EmptyString)); [|done].
  by destruct (GetNeibourIP (dev w)) as [[ip|err] d].
Qed.

(** The query block, by cases on the three answers. *)
Lemma scrape_query_eq (w : World) :
  scrape_query w =
    match QueryEchonetLite (dev w) request 3 with
    | (inl response, d1) =>
        Returned (Next response)
          (mkWorld d1 (clk w) (metrics w) (trace w ++ [EvQueryEchonetLite request 3]))
    | (inr err, d1) =>
        match Authenticate d1 with
        | (Some authErr, d2) =>
            Returned Return
              (mkWorld d2 (time.Sleep reAuthCooldown (clk w))
                 (count_error (metrics w) errorTypeAuth)
                 (trace w ++ reauth_events err
                  ++ [EvLog (Slog LevelWarn "Authentication failed"
                               [("error", ArgError authErr)])]))
        | (None, d2) =>
            match QueryEchonetLite d2 request 3 with
            | (inr err', d3) =>
                Returned Return
                  (mkWorld d3
                     (time.Sleep postAuthCooldown (time.Sleep reAuthCooldown (clk w)))
                     (count_error (metrics w) errorTypeQuery)
                     (trace w ++ reauth_events err ++ retry_events
                      ++ [EvLog (Slog LevelWarn "Query failed after re-auth"
                                   [("error", ArgError err')])]))
            | (inl response, d3) =>
                Returned (Next response)
                  (mkWorld d3
                     (time.Sleep postAuthCooldown (time.Sleep reAuthCooldown (clk w)))
                     (metrics w)
                     (trace w ++ reauth_events err ++ retry_events))
            end
        end
    end.
Proof.
  unfold scrape_query, dev_QueryEchonetLite, dev_Authenticate, time_Sleep,
    logger_Info, logger_Debug, logger_Warn, count_error.
  prog_unfold. cbn.
  destruct (QueryEchonetLite (dev w) request 3) as [[response|err] d1]; [done|].
  cbn. destruct (Authenticate d1) as [[authErr|] d2]; cbn.
  { by rewrite <- !app_assoc. }
  destruct (QueryEchonetLite d2 request 3) as [[response|err'] d3]; cbn;
    by rewrite <- !app_assoc.
Qed.

(** A cycle reads the clock, runs its body, and observes the duration whether
    the body returned or panicked. *)
Lemma scrape_eq (w : World) :
  scrape w =
    match scrape_body (started w) with
    | Returned _ w' => Returned tt (finished (time.Now (clk w)).1 w')
    | Panicked r w' => Panicked r (finished (time.Now (clk w)).1 w')
    end.
Proof.
  unfold scrape, scrape_deferred, time_Since, time_Now, defer, started, finished.
  prog_unfold. cbn.
  destruct (time.Now (clk w)) as [start c]. cbn.
  destruct (scrape_body _) as [[] w'|r w']; cbn;
    by destruct (time.Now (clk w')).
Qed.

Lemma scrape_body_eq (w : World) :
  scrape_body w =
    match scrape_resolve w with
    | Returned Return w1 => Returned tt w1
    | Returned (Next _) w1 =>
        match scrape_query w1 with
        | Returned Return w2 => Returned tt w2
        | Returned (Next response) w2 => parseAndSetMetrics response w2
        | Panicked r w2 => Panicked r w2
        end
    | Panicked r w1 => Panicked r w1
    end.
Proof.
  unfold scrape_body. prog_unfold.
  destruct (scrape_resolve w) as [[[]|] w1|r w1]; [|done|done].
  by destruct (scrape_query w1) as [[response|] w2|r w2].
Qed.

Lemma cycle_events_app {A} (w : World) (o : Outcome A) evs :
  trace (final o) = trace w ++ evs → cycle_events w o = evs.
Proof. intros Ht. unfold cycle_events. by rewrite Ht, drop_app_length. Qed.

(** C5.  A cycle that starts without an address and whose resolution fails
    returns after that one call to the device: it made no query, did not
    authenticate and did not sleep; it counted one [ip_resolve] error, left
    every gauge alone and observed its duration. *)
Theorem resolve_failure_ends_cycle (w : World) (err : error) d :
  IPAddr (dev w) = EmptyString →
  GetNeibourIP (dev w) = (inr err, d) →
  ∃ w',
    scrape w = Returned tt w' ∧
    cycle_events w (scrape w)
    = [ EvGetNeibourIP;
        EvLog (Slog LevelWarn "Failed to scan neighbor IP" [("error", ArgError err)]) ] ∧
    non_log (cycle_events w (scrape w)) = [EvGetNeibourIP] ∧
    scrapeErrors (metrics w')
    = <[errorTypeIPResolve := counter_value (metrics w) errorTypeIPResolve + 1]>
        (scrapeErrors (metrics w)) ∧
    powerGauge (metrics w') = powerGauge (metrics w) ∧
    currentGauge (metrics w') = currentGauge (metrics w) ∧
    lastSuccessGauge (metrics w') = lastSuccessGauge (metrics w) ∧
    length (scrapeDuration (metrics w')) = S (length (scrapeDuration (metrics w))) ∧
    dev w' = d.
Proof.
  intros Hip Hres.
  assert (scrape w = Returned tt
            (finished (time.Now (clk w)).1
               (mkWorld d (time.Now (clk w)).2
                  (count_error (metrics w) errorTypeIPResolve)
                  ((trace w ++ [EvGetNeibourIP])
                   ++ [EvLog (Slog LevelWarn "Failed to scan neighbor IP"
                                [("error", ArgError err)])])))) as Heq.
  { rewrite scrape_eq, scrape_body_eq, scrape_resolve_eq. unfold started. cbn.
    rewrite decide_True by done. by rewrite Hres. }
  assert (cycle_events w (scrape w)
          = [ EvGetNeibourIP;
              EvLog (Slog LevelWarn "Failed to scan neighbor IP"
                       [("error", ArgError err)]) ]) as Hev.
  { apply cycle_events_app. rewrite Heq. cbn. by rewrite <- app_assoc. }
  eexists. split; [exact Heq|]. rewrite Hev. cbn.
  repeat split; try done. rewrite length_app. cbn. lia.
Qed.

(** When the device reaches the query, the resolution block fell through and
    touched nothing but the device and the trace. *)
Lemma resolve_falls_through (w : World) d0 :
  device_at_query w = Some d0 →
  scrape_resolve (started w)
  = Returned (Next tt)
      (mkWorld d0 (time.Now (clk w)).2 (metrics w) (trace w ++ resolve_events w)).
Proof.
  unfold device_at_query, resolve_events. intros Hd.
  rewrite scrape_resolve_eq. unfold started. cbn.
  destruct (decide (IPAddr (dev w) = EmptyString)).
  - destruct (GetNeibourIP (dev w)) as [[ip|err] d]; [|done].
    by injection Hd as <-.
  - injection Hd as <-. rewrite app_nil_r. by destruct w.
Qed.

(** C6.  The first query fails, the re-authentication succeeds and the second
    query fails: the cycle returns having counted one [query] error.  Past
    the resolution its calls are, in order, the query, a sleep of
    [reAuthCooldown] (5 s), the authentication, a sleep of [postAuthCooldown]
    (2 s) and the same query once more, and nothing after it; the clock went
    through the two sleeps in that order. *)
Theorem query_failure_after_reauth (w : World) d0 (e1 e2 : error) d1 d2 d3 :
  device_at_query w = Some d0 →
  QueryEchonetLite d0 request 3 = (inr e1, d1) →
  Authenticate d1 = (None, d2) →
  QueryEchonetLite d2 request 3 = (inr e2, d3) →
  ∃ w',
    scrape w = Returned tt w' ∧
    non_log (cycle_events w (scrape w))
    = resolve_events w
      ++ [ EvQueryEchonetLite request 3;
           EvSleep reAuthCooldown;
           EvAuthenticate;
           EvSleep postAuthCooldown;
           EvQueryEchonetLite request 3 ] ∧
    reAuthCooldown = 5 * 1000000000 ∧
    postAuthCooldown = 2 * 1000000000 ∧
    clk w'
    = (time.Now (time.Sleep postAuthCooldown
                   (time.Sleep reAuthCooldown (time.Now (clk w)).2))).2 ∧
    scrapeErrors (metrics w')
    = <[errorTypeQuery := counter_value (metrics w) errorTypeQuery + 1]>
        (scrapeErrors (metrics w)) ∧
    powerGauge (metrics w') = powerGauge (metrics w) ∧
    currentGauge (metrics w') = currentGauge (metrics w) ∧
    lastSuccessGauge (metrics w') = lastSuccessGauge (metrics w) ∧
    dev w' = d3.
Proof.
  intros Hd Hq1 Hauth Hq2.
  set (evs := resolve_events w ++ reauth_events e1 ++ retry_events
              ++ [EvLog (Slog LevelWarn "Query failed after re-auth"
                           [("error", ArgError e2)])]).
  assert (scrape w = Returned tt
            (finished (time.Now (clk w)).1
               (mkWorld d3
                  (time.Sleep postAuthCooldown
                     (time.Sleep reAuthCooldown (time.Now (clk w)).2))
                  (count_error (metrics w) errorTypeQuery)
                  (trace w ++ evs)))) as Heq.
  { rewrite scrape_eq, scrape_body_eq, (resolve_falls_through w d0 Hd).
    rewrite scrape_query_eq. cbn. rewrite Hq1, Hauth, Hq2.
    subst evs. by rewrite <- !app_assoc. }
  assert (cycle_events w (scrape w) = evs) as Hev.
  { apply cycle_events_app. by rewrite Heq. }
  eexists. split; [exact Heq|]. rewrite Hev. subst evs.
  split.
  { unfold non_log, resolve_events. rewrite filter_app.
    by destruct (decide (IPAddr (dev w) = EmptyString)). }
  done.
Qed.

(** A cycle that gets a response hands it to the decoder with the registry as
    the cycle found it. *)
Lemma body_decodes (w : World) (response : Frame) :
  decoded_response w = Some response →
  ∃ w2, scrape_body (started w) = parseAndSetMetrics response w2 ∧
        metrics w2 = metrics w.
Proof.
  unfold decoded_response. intros Hresp.
  destruct (device_at_query w) as [d0|] eqn:Hd; [|done].
  rewrite scrape_body_eq, (resolve_falls_through w d0 Hd), scrape_query_eq. cbn.
  destruct (QueryEchonetLite d0 request 3) as [[r|e1] d1].
  { injection Hresp as ->. by eexists. }
  destruct (Authenticate d1) as [[authErr|] d2]; [done|].
  destruct (QueryEchonetLite d2 request 3) as [[r|e2] d3]; [|done].
  injection Hresp as ->. by eexists.
Qed.

(** A cycle that gets no response returns, and leaves every gauge alone. *)
Lemma body_without_response (w : World) :
  decoded_response w = None →
  ∃ w2, scrape_body (started w) = Returned tt w2 ∧
        powerGauge (metrics w2) = powerGauge (metrics w) ∧
        currentGauge (metrics w2) = currentGauge (metrics w) ∧
        lastSuccessGauge (metrics w2) = lastSuccessGauge (metrics w).
Proof.
  unfold decoded_response, device_at_query. intros Hresp.
  rewrite scrape_body_eq, scrape_resolve_eq. unfold started at 1 2. cbn.
  destruct (decide (IPAddr (dev w) = EmptyString)).
  - destruct (GetNeibourIP (dev w)) as [[ip|err] d]; [|by eexists].
    rewrite scrape_query_eq. cbn.
    destruct (QueryEchonetLite _ request 3) as [[r|e1] d1]; [done|].
    destruct (Authenticate d1) as [[authErr|] d2]; [by eexists|].
    destruct (QueryEchonetLite d2 request 3) as [[r|e2] d3]; [done|by eexists].
  - rewrite scrape_query_eq. cbn.
    destruct (QueryEchonetLite _ request 3) as [[r|e1] d1]; [done|].
    destruct (Authenticate d1) as [[authErr|] d2]; [by eexists|].
    destruct (QueryEchonetLite d2 request 3) as [[r|e2] d3]; [done|by eexists].
Qed.

(** C4.  The response a cycle decodes holds no recognized property, however
    many others it holds: the cycle returns having counted one [parse] error
    and no other, and the power gauge, both current gauges and the
    last-success stamp are what they were before the cycle. *)
Theorem parse_failure_updates_no_reading (w : World) (response : Frame) :
  decoded_response w = Some response →
  existsb recognized (Properties response) = false →
  ∃ w',
    scrape w = Returned tt w' ∧
    scrapeErrors (metrics w')
    = <[errorTypeParse := counter_value (metrics w) errorTypeParse + 1]>
        (scrapeErrors (metrics w)) ∧
    powerGauge (metrics w') = powerGauge (metrics w) ∧
    currentGauge (metrics w') = currentGauge (metrics w) ∧
    lastSuccessGauge (metrics w') = lastSuccessGauge (metrics w).
Proof.
  intros Hresp Hnone.
  destruct (body_decodes w response Hresp) as (w2 & Hbody & Hm).
  destruct (parse_failure_at_decoder response w2 Hnone)
    as (w3 & Hparse & Herr & Hp & Hc & Hl & _).
  eexists. split.
  { rewrite scrape_eq, Hbody, Hparse. reflexivity. }
  cbn. rewrite Herr, Hp, Hc, Hl, Hm. done.
Qed.

(** A cycle panics exactly when the response it decodes holds a recognized
    property of fewer than four bytes. *)
Lemma scrape_returns (w : World) :
  returns (scrape w)
  = match decoded_response w with
    | Some response => forallb well_sized (Properties response)
    | None => true
    end.
Proof.
  rewrite scrape_eq.
  destruct (decoded_response w) as [response|] eqn:Hresp.
  - destruct (body_decodes w response Hresp) as (w2 & -> & _).
    unfold parseAndSetMetrics. prog_unfold.
    pose proof (loop_returns (Properties response) false w2) as Hloop.
    destruct (parseAndSetMetrics_loop _ _ _) as [[] w3|r w3]; cbn in Hloop |- *;
      rewrite <- Hloop; [|done..].
    unfold time_Now. prog_unfold. by destruct (time.Now (clk w3)).
  - by destruct (body_without_response w Hresp) as (w2 & -> & _).
Qed.

(** The loop touches the registry only. *)
Lemma loop_frame (ps : list Property) :
  ∀ found (w : World),
    let w' := final (parseAndSetMetrics_loop ps found w) in
    dev w' = dev w ∧ clk w' = clk w ∧ trace w' = trace w.
Proof.
  induction ps as [|p ps IH]; intros found w; [done|]. cbn.
  destruct (decide (EPC p = _)).
  { destruct (binary.BigEndian_Uint32 (EDT p)); [|done].
    apply (IH true (with_metrics w _)). }
  destruct (decide (EPC p = _)); [|apply IH].
  destruct (slice.to 2 (EDT p)) as [hi|]; [|done].
  destruct (binary.BigEndian_Uint16 hi) eqn:Hhi;
    [|by prog_unfold; rewrite Hhi].
  destruct (slice.from 2 (EDT p)) as [lo|]; [|by prog_unfold; rewrite Hhi].
  destruct (binary.BigEndian_Uint16 lo) eqn:Hlo;
    [|by prog_unfold; rewrite Hhi, Hlo].
  prog_unfold. rewrite Hhi, Hlo. apply (IH true (with_metrics w _)).
Qed.

(** The decoder leaves the device alone and adds logger calls only. *)
Lemma parseAndSetMetrics_frame (response : Frame) (w : World) :
  let w' := final (parseAndSetMetrics response w) in
  dev w' = dev w ∧ ∃ evs, trace w' = trace w ++ evs ∧ non_log evs = [].
Proof.
  unfold parseAndSetMetrics. prog_unfold.
  pose proof (loop_frame (Properties response) false w) as (Hd & _ & Ht).
  destruct (parseAndSetMetrics_loop _ _ _) as [[] w1|r w1]; cbn in Hd, Ht |- *.
  - unfold time_Now, logger_Debug. prog_unfold.
    destruct (time.Now (clk w1)). cbn. rewrite Hd, Ht. split; [done|by eexists].
  - rewrite Hd, Ht. split; [done|by eexists].
  - rewrite Hd, Ht. split; [done|]. exists []. by rewrite app_nil_r.
Qed.

Lemma non_log_app (t1 t2 : list Event) :
  non_log (t1 ++ t2) = non_log t1 ++ non_log t2.
Proof. apply filter_app. Qed.

Lemma no_resolve_in_logs (evs : list Event) :
  non_log evs = [] → EvGetNeibourIP ∉ evs.
Proof.
  intros Hnl Hin.
  assert (EvGetNeibourIP ∈ non_log evs) as Hin' by (by apply list_elem_of_filter).
  rewrite Hnl in Hin'. by apply not_elem_of_nil in Hin'.
Qed.

(** A cycle that starts with an address starts at the query: it does not
    resolve, and with a client that leaves the field alone the address is
    still there at the end, whatever the outcome. *)
Lemma scrape_with_address (w : World) :
  keeps_IPAddr →
  IPAddr (dev w) ≠ EmptyString →
  IPAddr (dev (final (scrape w))) = IPAddr (dev w) ∧
  ∃ evs, trace (final (scrape w)) = trace w ++ EvQueryEchonetLite request 3 :: evs ∧
         EvGetNeibourIP ∉ evs.
Proof.
  intros (Hauth & Hquery) Hip.
  assert (∀ (r : Frame) (w2 : World) evs2,
            IPAddr (dev w2) = IPAddr (dev w) →
            trace w2 = trace w ++ EvQueryEchonetLite request 3 :: evs2 →
            EvGetNeibourIP ∉ evs2 →
            let o := parseAndSetMetrics r w2 in
            IPAddr (dev (final o)) = IPAddr (dev w) ∧
            ∃ evs, trace (final o) = trace w ++ EvQueryEchonetLite request 3 :: evs ∧
                   EvGetNeibourIP ∉ evs) as Hdecode.
  { intros r w2 evs2 Hd2 Ht2 Hev2.
    pose proof (parseAndSetMetrics_frame r w2) as (Hd & evs & Ht & Hnl).
    cbv zeta. rewrite Hd, Ht, Ht2. split; [done|].
    exists (evs2 ++ evs). split; [by rewrite <- app_assoc|].
    apply not_elem_of_app. split; [done|by apply no_resolve_in_logs]. }
  assert (∀ {A} (o : Outcome A) start,
            final (match o with
                   | Returned _ w' => Returned tt (finished start w')
                   | Panicked r w' => Panicked r (finished start w')
                   end) = finished start (final o)) as Hfin
    by (by intros A [] ?).
  rewrite scrape_eq, Hfin. cbn [finished dev trace].
  rewrite scrape_body_eq, scrape_resolve_eq. unfold started at 1 2. cbn.
  rewrite decide_False by done. rewrite scrape_query_eq. cbn.
  pose proof (Hquery (dev w) request 3 Hip) as Hq1.
  destruct (QueryEchonetLite (dev w) request 3) as [[r|e1] d1]; cbn in Hq1.
  { apply (Hdecode r _ []); [done|done|apply not_elem_of_nil]. }
  assert (IPAddr d1 ≠ EmptyString) as Hip1 by congruence.
  pose proof (Hauth d1 Hip1) as Ha.
  destruct (Authenticate d1) as [[authErr|] d2]; cbn in Ha |- *.
  { split; [congruence|]. eexists. split; [reflexivity|].
    repeat (apply not_elem_of_cons; split; [done|]). apply not_elem_of_nil. }
  assert (IPAddr d2 ≠ EmptyString) as Hip2 by congruence.
  pose proof (Hquery d2 request 3 Hip2) as Hq2.
  destruct (QueryEchonetLite d2 request 3) as [[r|e2] d3]; cbn in Hq2 |- *.
  { eapply Hdecode; [cbn; congruence|reflexivity|].
    repeat (apply not_elem_of_cons; split; [done|]). apply not_elem_of_nil. }
  split; [congruence|]. eexists. split; [reflexivity|].
  repeat (apply not_elem_of_cons; split; [done|]). apply not_elem_of_nil.
Qed.

(** Once the resolution has succeeded, the cycle goes on as one that started
    with the address. *)
Lemma scrape_after_resolution (w : World) (ip : string) d :
  IPAddr (dev w) = EmptyString →
  GetNeibourIP (dev w) = (inl ip, d) →
  ip ≠ EmptyString →
  scrape w
  = scrape (mkWorld (mkDevice ip (priv d)) (clk w) (metrics w)
                    (trace w ++ [EvGetNeibourIP])).
Proof.
  intros Hempty Hres Hip.
  rewrite !scrape_eq, !scrape_body_eq, !scrape_resolve_eq.
  unfold started. cbn.
  rewrite decide_True, Hres, decide_False by done. reflexivity.
Qed.

(** Any number of cycles that start with an address never resolve it again
    and end with the same address. *)
Lemma scrape_times_with_address (n : nat) :
  ∀ w : World,
    keeps_IPAddr →
    IPAddr (dev w) ≠ EmptyString →
    IPAddr (dev (final (scrape_times n w))) = IPAddr (dev w) ∧
    ∃ evs, trace (final (scrape_times n w)) = trace w ++ evs ∧
           EvGetNeibourIP ∉ evs.
Proof.
  induction n as [|n IH]; intros w Hkeeps Hip.
  - cbn. split; [done|]. exists []. split; [by rewrite app_nil_r|apply not_elem_of_nil].
  - destruct (scrape_with_address w Hkeeps Hip) as (Hd & evs & Ht & Hev).
    cbn [scrape_times]. prog_unfold.
    destruct (scrape w) as [[] w1|r w1]; cbn in Hd, Ht |- *.
    + destruct (IH w1 Hkeeps) as (Hd' & evs' & Ht' & Hev'); [congruence|].
      split; [congruence|].
      exists ((EvQueryEchonetLite request 3 :: evs) ++ evs').
      split; [by rewrite Ht', Ht, <- app_assoc|].
      apply not_elem_of_app. split; [|done].
      apply not_elem_of_cons. by split.
    + split; [done|]. eexists. split; [exact Ht|].
      apply not_elem_of_cons. by split.
Qed.


(** The case the specification singles out: the query fails and so does the
    re-authentication.  The cycle counts one [auth] error and the address it
    started with is still in place. *)
Lemma auth_failure_keeps_address (w : World) (e1 e2 : error) d1 d2 :
  keeps_IPAddr →
  IPAddr (dev w) ≠ EmptyString →
  QueryEchonetLite (dev w) request 3 = (inr e1, d1) →
  Authenticate d1 = (Some e2, d2) →
  ∃ w',
    scrape w = Returned tt w' ∧
    IPAddr (dev w') = IPAddr (dev w) ∧
    scrapeErrors (metrics w')
    = <[errorTypeAuth := counter_value (metrics w) errorTypeAuth + 1]>
        (scrapeErrors (metrics w)) ∧
    non_log (cycle_events w (scrape w))
    = [EvQueryEchonetLite request 3; EvSleep reAuthCooldown; EvAuthenticate].
Proof.
  intros (Hauth & Hquery) Hip Hq Ha.
  assert (device_at_query w = Some (dev w)) as Hd
    by (unfold device_at_query; by rewrite decide_False).
  assert (resolve_events w = []) as Hre
    by (unfold resolve_events; by rewrite decide_False).
  set (evs := reauth_events e1
              ++ [EvLog (Slog LevelWarn "Authentication failed"
                           [("error", ArgError e2)])]).
  assert (scrape w = Returned tt
            (finished (time.Now (clk w)).1
               (mkWorld d2 (time.Sleep reAuthCooldown (time.Now (clk w)).2)
                  (count_error (metrics w) errorTypeAuth)
                  (trace w ++ evs)))) as Heq.
  { rewrite scrape_eq, scrape_body_eq, (resolve_falls_through w _ Hd).
    rewrite scrape_query_eq. cbn. rewrite Hq, Ha, Hre, app_nil_r. reflexivity. }
  eexists. split; [exact Heq|].
  rewrite (cycle_events_app w _ evs) by by rewrite Heq.
  cbn. split; [|done].
  pose proof (Hquery (dev w) request 3 Hip) as H1. rewrite Hq in H1. cbn in H1.
  assert (IPAddr d1 ≠ EmptyString) as Hip1 by congruence.
  pose proof (Hauth d1 Hip1) as H2. rewrite Ha in H2. cbn in H2. congruence.
Qed.

End CycleFacts.

(** ** The two variants differ in logging only *)

Section LogVariants.
Context `{client : DeviceClient} `{clock : time.Clock}.

Lemma erase_log_inv (w w' : World) :
  erase_log w = erase_log w' →
  dev w = dev w' ∧ clk w = clk w' ∧ metrics w = metrics w' ∧
  non_log (trace w) = non_log (trace w').
Proof. unfold erase_log. intros Heq. by injection Heq. Qed.

Lemma erase_log_eq (w w' : World) :
  dev w = dev w' → clk w = clk w' → metrics w = metrics w' →
  non_log (trace w) = non_log (trace w') →
  erase_log w = erase_log w'.
Proof. unfold erase_log. congruence. Qed.

Lemma log_equiv_ret {A} (a : A) : log_equiv (mret a) (mret a).
Proof. intros w w' Heq. cbn. by rewrite Heq. Qed.

Lemma log_equiv_bind {A B} (m m' : Prog A) (f g : A → Prog B) :
  log_equiv m m' → (∀ a, log_equiv (f a) (g a)) →
  log_equiv (m ≫= f) (m' ≫= g).
Proof.
  intros Hm Hf w w' Heq. specialize (Hm w w' Heq). prog_unfold.
  destruct (m w) as [a w1|r w1], (m' w') as [a' w1'|r' w1']; cbn in Hm;
    try discriminate.
  - assert (a = a') as -> by congruence.
    apply Hf. congruence.
  - cbn. congruence.
Qed.

Lemma log_equiv_panic {A} r : log_equiv (panic r : Prog A) (panic r).
Proof. intros w w' Heq. cbn. by rewrite Heq. Qed.

Lemma log_equiv_checked {A} r (o : option A) :
  log_equiv (checked r o) (checked r o).
Proof. destruct o; [apply log_equiv_ret|apply log_equiv_panic]. Qed.

(** A step that answers and moves alike from states that agree. *)
Lemma log_equiv_call {A} (f : World → A * World) :
  (∀ w w', erase_log w = erase_log w' →
           (f w).1 = (f w').1 ∧ erase_log (f w).2 = erase_log (f w').2) →
  log_equiv (call f) (call f).
Proof.
  intros Hf w w' Heq. destruct (Hf w w' Heq) as [Ha Hw].
  unfold call. destruct (f w), (f w'). cbn in *. by rewrite Ha, Hw.
Qed.

Lemma log_equiv_modify (f : World → World) :
  (∀ w w', erase_log w = erase_log w' → erase_log (f w) = erase_log (f w')) →
  log_equiv (modify f) (modify f).
Proof. intros Hf w w' Heq. cbn. by rewrite (Hf w w' Heq). Qed.

Lemma log_equiv_emit (e : Event) : log_equiv (emit e) (emit e).
Proof.
  apply log_equiv_modify. intros w w' (Hd & Hc & Hm & Ht)%erase_log_inv.
  apply erase_log_eq; cbn [dev clk metrics trace]; try done.
  by rewrite !non_log_app, Ht.
Qed.

(** A logger call on the left matches a logger call on the right, or none. *)
Lemma log_equiv_log (c c' : LogCall) :
  log_equiv (emit (EvLog c)) (emit (EvLog c')).
Proof.
  intros w w' (Hd & Hc & Hm & Ht)%erase_log_inv.
  cbn [emit modify erase_log_outcome]. f_equal.
  apply erase_log_eq; cbn [dev clk metrics trace]; try done.
  by rewrite !non_log_app, Ht.
Qed.

Lemma log_equiv_log_r {A} (c : LogCall) (p q : Prog A) :
  log_equiv p q → log_equiv p (emit (EvLog c) ;; q).
Proof.
  intros Hpq w w' (Hd & Hc & Hm & Ht)%erase_log_inv. prog_unfold.
  apply Hpq.
  apply erase_log_eq; cbn [dev clk metrics trace]; try done.
  rewrite non_log_app, Ht. cbn. by rewrite app_nil_r.
Qed.

Lemma log_equiv_metrics (f : Metrics → Metrics) :
  log_equiv (modify_metrics f) (modify_metrics f).
Proof.
  apply log_equiv_modify. intros w w' (Hd & Hc & Hm & Ht)%erase_log_inv.
  apply erase_log_eq; cbn [dev clk metrics trace]; congruence.
Qed.

Lemma log_equiv_Now : log_equiv time_Now time_Now.
Proof.
  apply log_equiv_call. intros w w' (Hd & Hc & Hm & Ht)%erase_log_inv.
  rewrite Hc. destruct (time.Now (clk w')). split; [done|].
  apply erase_log_eq; cbn [dev clk metrics trace snd]; congruence.
Qed.

Lemma log_equiv_Sleep d : log_equiv (time_Sleep d) (time_Sleep d).
Proof.
  apply log_equiv_bind; [apply log_equiv_emit|]. intros _.
  apply log_equiv_modify. intros w w' (Hd & Hc & Hm & Ht)%erase_log_inv.
  apply erase_log_eq; cbn [dev clk metrics trace]; congruence.
Qed.

Lemma log_equiv_IPAddr : log_equiv dev_IPAddr dev_IPAddr.
Proof.
  apply log_equiv_call. intros w w' Heq. cbn. split; [|done].
  apply erase_log_inv in Heq as (Hd & _). by rewrite Hd.
Qed.

Lemma log_equiv_set_IPAddr ip : log_equiv (set_dev_IPAddr ip) (set_dev_IPAddr ip).
Proof.
  apply log_equiv_modify. intros w w' (Hd & Hc & Hm & Ht)%erase_log_inv.
  apply erase_log_eq; cbn [dev clk metrics trace]; congruence.
Qed.

Lemma log_equiv_GetNeibourIP : log_equiv dev_GetNeibourIP dev_GetNeibourIP.
Proof.
  apply log_equiv_bind; [apply log_equiv_emit|]. intros _.
  apply log_equiv_call. intros w w' (Hd & Hc & Hm & Ht)%erase_log_inv.
  rewrite Hd. destruct (GetNeibourIP (dev w')). split; [done|].
  apply erase_log_eq; cbn [dev clk metrics trace snd]; congruence.
Qed.

Lemma log_equiv_Authenticate : log_equiv dev_Authenticate dev_Authenticate.
Proof.
  apply log_equiv_bind; [apply log_equiv_emit|]. intros _.
  apply log_equiv_call. intros w w' (Hd & Hc & Hm & Ht)%erase_log_inv.
  rewrite Hd. destruct (Authenticate (dev w')). split; [done|].
  apply erase_log_eq; cbn [dev clk metrics trace snd]; congruence.
Qed.

Lemma log_equiv_QueryEchonetLite f n :
  log_equiv (dev_QueryEchonetLite f n) (dev_QueryEchonetLite f n).
Proof.
  apply log_equiv_bind; [apply log_equiv_emit|]. intros _.
  apply log_equiv_call. intros w w' (Hd & Hc & Hm & Ht)%erase_log_inv.
  rewrite Hd. destruct (QueryEchonetLite (dev w') f n). split; [done|].
  apply erase_log_eq; cbn [dev clk metrics trace snd]; congruence.
Qed.

Lemma log_equiv_defer {A} (d d' : Prog unit) (b b' : Prog A) :
  log_equiv d d' → log_equiv b b' → log_equiv (defer d b) (defer d' b').
Proof.
  intros Hd Hb w w' Heq. specialize (Hb w w' Heq). unfold defer. prog_unfold.
  destruct (b w) as [a w1|r w1], (b' w') as [a' w1'|r' w1']; cbn in Hb;
    try discriminate.
  - assert (a = a') as -> by congruence.
    assert (erase_log w1 = erase_log w1') as Hw by congruence.
    specialize (Hd w1 w1' Hw).
    destruct (d w1) as [[] w2|r w2], (d' w1') as [[] w2'|r' w2']; cbn in Hd |- *;
      try discriminate; congruence.
  - assert (r = r') as -> by congruence.
    assert (erase_log w1 = erase_log w1') as Hw by congruence.
    specialize (Hd w1 w1' Hw).
    destruct (d w1) as [[] w2|r2 w2], (d' w1') as [[] w2'|r2' w2']; cbn in Hd |- *;
      try discriminate; congruence.
Qed.

(** Matches the two programs statement by statement. *)
Ltac log_equiv_prim :=
  first [ apply log_equiv_ret | apply log_equiv_checked | apply log_equiv_panic
        | apply log_equiv_Now | apply log_equiv_Sleep
        | apply log_equiv_IPAddr | apply log_equiv_set_IPAddr
        | apply log_equiv_GetNeibourIP | apply log_equiv_Authenticate
        | apply log_equiv_QueryEchonetLite
        | apply log_equiv_metrics | apply log_equiv_log ].

Ltac log_equiv_go :=
  repeat first
    [ log_equiv_prim
    | apply log_equiv_bind; [log_equiv_prim | intros ?]
    | apply log_equiv_log_r
    | apply log_equiv_bind; [|intros ?]
    | match goal with
      | |- log_equiv (match ?x with _ => _ end) _ => destruct x
      | |- log_equiv (if ?x then _ else _) _ => destruct x
      end ].

Lemma loop_log_equiv (ps : list Property) :
  ∀ found,
    log_equiv (parseAndSetMetrics_log_loop ps found)
              (parseAndSetMetrics_loop ps found).
Proof.
  induction ps as [|p ps IH]; intros found; cbn; [apply log_equiv_ret|].
  unfold powerGauge_Set, currentGauge_Set.
  destruct (decide (EPC p = _)); [|destruct (decide (EPC p = _))];
    log_equiv_go; apply IH.
Qed.

Lemma parseAndSetMetrics_log_equiv (response : Frame) :
  log_equiv (parseAndSetMetrics_log response) (parseAndSetMetrics response).
Proof.
  unfold parseAndSetMetrics_log, parseAndSetMetrics.
  apply log_equiv_bind; [apply loop_log_equiv|]. intros foundData.
  unfold lastSuccessGauge_Set, scrapeErrors_Inc, logger_Println, logger_Debug,
    logger_Warn.
  log_equiv_go.
Qed.

Lemma scrape_resolve_log_equiv : log_equiv scrape_log_resolve scrape_resolve.
Proof.
  unfold scrape_log_resolve, scrape_resolve, scrapeErrors_Inc, logger_Printf,
    logger_Warn.
  log_equiv_go.
Qed.

Lemma scrape_query_log_equiv : log_equiv scrape_log_query scrape_query.
Proof.
  unfold scrape_log_query, scrape_query, scrapeErrors_Inc, logger_Printf,
    logger_Warn, logger_Info, logger_Debug.
  log_equiv_go.
Qed.

Lemma scrape_log_equiv : log_equiv scrape_log scrape.
Proof.
  unfold scrape_log, scrape.
  apply log_equiv_bind; [apply log_equiv_Now|]. intros start.
  apply log_equiv_defer.
  { unfold scrape_deferred, time_Since, scrapeDuration_Observe. log_equiv_go. }
  unfold scrape_log_body, scrape_body.
  apply log_equiv_bind; [apply scrape_resolve_log_equiv|]. intros [[]|];
    [|apply log_equiv_ret].
  apply log_equiv_bind; [apply scrape_query_log_equiv|]. intros [response|];
    [apply parseAndSetMetrics_log_equiv|apply log_equiv_ret].
Qed.

(** C9.  From any state, the [log] variant and the [log/slog] variant of
    [scrape] end alike, and so do the two variants of [parseAndSetMetrics] on
    any response: both return or both panic, for the same reason, with the
    same device, the same clock, the same registry (gauges, counters,
    histogram, last-success stamp) and the same calls to the device and
    sleeps in the same order; only their logger calls differ. *)
Theorem variants_agree_up_to_logging (w : World) (response : Frame) :
  erase_log_outcome (scrape_log w) = erase_log_outcome (scrape w) ∧
  erase_log_outcome (parseAndSetMetrics_log response w)
  = erase_log_outcome (parseAndSetMetrics response w).
Proof.
  split.
  - by apply scrape_log_equiv.
  - by apply parseAndSetMetrics_log_equiv.
Qed.

End LogVariants.

(** ** The configuration *)

Lemma Atoi_range (intSize : Z) (s : string) (v : Z) :
  strconv.Atoi intSize s = Some v →
  - 2 ^ (intSize - 1) <= v <= 2 ^ (intSize - 1) - 1.
Proof.
  unfold strconv.Atoi.
  destruct (match s with
            | String "+" rest => (false, rest)
            | String "-" rest => (true, rest)
            | _ => (false, s)
            end) as [neg body].
  destruct body as [|c rest]; [done|].
  destruct (strconv.digits _ 0) as [n|]; [|done].
  destruct (_ && _) eqn:Hr; [|done].
  intros [= <-]. apply andb_prop in Hr as [H1 H2]. lia.
Qed.

Lemma wrap64_small (z : Z) : - 2 ^ 63 <= z < 2 ^ 63 → wrap64 z = z.
Proof. intros Hz. unfold wrap64. rewrite Z.mod_small; lia. Qed.

(** The number of seconds [main] settles on is never below ten. *)
Lemma intervalSec_floor (intSize : Z) env flags cfg :
  main_config intSize env flags = Some cfg → 10 <= intervalSec cfg.
Proof.
  unfold main_config. destruct (decide _) as [|_]; [done|]. intros [= <-]. cbn.
  destruct (strconv.Atoi _ _) as [k|]; [|lia].
  destruct (Z.ltb_spec k 10); lia.
Qed.

(** Where [int] has 32 bits the product cannot wrap, and the period handed to
    the loop is ten seconds or more. *)
Lemma interval_floor_32 env flags cfg :
  main_config 32 env flags = Some cfg → 10 * time.Second <= interval cfg.
Proof.
  unfold main_config. destruct (decide _) as [|_]; [done|]. intros [= <-]. cbn.
  destruct (strconv.Atoi _ _) as [k|] eqn:Hk.
  - apply Atoi_range in Hk. unfold time.Second.
    destruct (Z.ltb_spec k 10); rewrite wrap64_small; lia.
  - rewrite wrap64_small; unfold time.Second; lia.
Qed.

(** Where [int] has 64 bits the same holds as long as the product fits. *)
Lemma interval_floor_64 env flags cfg :
  main_config 64 env flags = Some cfg →
  intervalSec cfg <= 9223372036 →
  10 * time.Second <= interval cfg.
Proof.
  intros Hcfg Hmax. pose proof (intervalSec_floor _ _ _ _ Hcfg) as Hmin.
  revert Hcfg Hmax Hmin.
  unfold main_config. destruct (decide _) as [|_]; [done|]. intros [= <-]. cbn.
  intros Hmax Hmin. unfold time.Second in *. rewrite wrap64_small; lia.
Qed.

(** C8.  With a 64-bit [int] and [SMARTMETER_INTERVAL=18446744074], [Atoi]
    succeeds, the value passes the [< 10] test, and
    [time.Duration(intervalSec)*time.Second] wraps to 290448384 ns: the loop
    is started with a period of 0.29 s, below the floor of ten seconds. *)
Theorem interval_overflow_breaks_floor :
  main_config 64 env_overflow no_flags
  = Some (mkConfig true 18446744074 290448384) ∧
  290448384 < 10 * time.Second.
Proof. split; [vm_compute; reflexivity | unfold time.Second; lia]. Qed.

(** [SMARTMETER_DSE] unset reads as the empty string. *)
Lemma Getenv_unset env key : env !! key = None → os_Getenv env key = EmptyString.
Proof. unfold os_Getenv. by intros ->. Qed.

(** C10.  When [SMARTMETER_DSE] reads neither [false] nor [0], unset
    included, [useDSE] is [true] before the flags are parsed; with no [-dse]
    flag and the ID and password that let [main] go on, it is [true] in the
    configuration the device is opened with. *)
Theorem dse_enabled_unless_false_or_0 (intSize : Z) env flags :
  os_Getenv env "SMARTMETER_DSE" ≠ "false" →
  os_Getenv env "SMARTMETER_DSE" ≠ "0" →
  flag_dse flags = None →
  flag_Var (flag_id flags) (getEnv env "SMARTMETER_ID" EmptyString) ≠ EmptyString →
  flag_Var (flag_password flags) (getEnv env "SMARTMETER_PASSWORD" EmptyString) ≠ EmptyString →
  useDSE_env env = true ∧
  ∃ cfg, main_config intSize env flags = Some cfg ∧ useDSE cfg = true.
Proof.
  intros Hf H0 Hflag Hid Hpw.
  assert (useDSE_env env = true) as Henv.
  { unfold useDSE_env. by rewrite decide_True. }
  split; [done|].
  unfold main_config. rewrite decide_False by (by intros [|]).
  eexists. split; [reflexivity|]. cbn. by rewrite Hflag, Henv.
Qed.

(** The two values that switch it off. *)
Lemma dse_disabled_by_false_or_0 env :
  os_Getenv env "SMARTMETER_DSE" = "false" ∨ os_Getenv env "SMARTMETER_DSE" = "0" →
  useDSE_env env = false.
Proof.
  intros Hv. unfold useDSE_env. rewrite decide_False; [done|].
  intros [H1 H2]. by destruct Hv.
Qed.

(** ** The statements on the scripted device *)

(** The scripted device never writes the address field. *)
Lemma scripted_keeps_IPAddr : keeps_IPAddr.
Proof.
  split.
  - intros [ip [|[] rest]] _; reflexivity.
  - intros [ip [|[] rest]] f n _; reflexivity.
Qed.

(** The specification's end-to-end scenario: power bytes [00 00 04 B0] and
    current bytes [00 64 00 32] give 1200 W, 10.0 A and 5.0 A, and the stamp
    of the cycle's time. *)
Example scrape_1200W :
  let o := scrape (world EmptyString [ReplyIP (inl "FE80::1"); ReplyQuery (inl response_1200W)]
                         1700000000123456789) in
  returns o = true ∧
  powerGauge (metrics (final o)) = 1200%float ∧
  currentGauge (metrics (final o)) !! "r" = Some 10%float ∧
  currentGauge (metrics (final o)) !! "t" = Some 5%float ∧
  lastSuccessGauge (metrics (final o)) = 1700000000%float ∧
  scrapeErrors (metrics (final o)) = ∅ ∧
  IPAddr (dev (final o)) = "FE80::1".
Proof. vm_compute. repeat split; reflexivity. Qed.

(** C1.  A response whose power property carries two bytes: the cycle
    panics in [binary.BigEndian.Uint32], nothing recovers it, and no error
    was counted; only the deferred observation ran. *)
Theorem short_payload_panics :
  let o := scrape (world "FE80::1" [ReplyQuery (inl response_short)] 0) in
  returns o = false ∧
  panicked o = Some IndexOutOfRange ∧
  scrapeErrors (metrics (final o)) = ∅ ∧
  length (scrapeDuration (metrics (final o))) = 1%nat.
Proof. vm_compute. repeat split; reflexivity. Qed.

(** The same with an empty payload on the current property. *)
Example empty_current_payload_panics :
  let o := scrape (world "FE80::1"
                     [ReplyQuery (inl (NewFrame 0x0288 Byte.x72
                                         [NewProperty Byte.xe8 []]))] 0) in
  panicked o = Some SliceBoundsOutOfRange.
Proof. vm_compute. reflexivity. Qed.

(** An interval the product turns negative stops the loop before its first
    cycle: [time.NewTicker] panics. *)
Example negative_interval_panics :
  wrap64 (9223372037 * time.Second) < 0 ∧
  panicked (runScrapeLoop (wrap64 (9223372037 * time.Second)) 0
              (world "FE80::1" [] 0)) = Some NonPositiveTickerInterval.
Proof. vm_compute. split; reflexivity. Qed.

(** The empty string is the program's mark of a device without an address: a
    resolution that answers it with a [nil] error leaves the device without
    one, and the next cycle resolves again. *)
Example empty_answer_is_no_address :
  let w := world EmptyString
             [ ReplyIP (inl EmptyString); ReplyQuery (inl response_1200W);
               ReplyIP (inl "FE80::1"); ReplyQuery (inl response_1200W) ] 0 in
  let w1 := final (scrape w) in
  IPAddr (dev w1) = EmptyString ∧
  hd_error (cycle_events w1 (scrape w1)) = Some EvGetNeibourIP ∧
  IPAddr (dev (final (scrape w1))) = "FE80::1".
Proof. cbv zeta. repeat split; reflexivity. Qed.

Lemma power_reading_is_uint32_witness :
  ∃ w', parseAndSetMetrics response_1200W (world "FE80::1" [] 0) = Returned tt w' ∧
        powerGauge (metrics w') = 1200%float ∧
        Float64.int_value (powerGauge (metrics w')) = Some 1200.
Proof.
  destruct (power_reading_is_uint32 response_1200W [] power_1200 [current_10_5]
              (world "FE80::1" [] 0))
    as (w' & Hrun & _ & Hval & Hexact & _);
    [reflexivity | reflexivity | reflexivity | reflexivity | reflexivity
    | repeat constructor; discriminate |].
  exists w'. split; [exact Hrun|]. split; [exact Hval | exact Hexact].
Defined.

Lemma current_readings_are_tenths_witness :
  ∃ w', parseAndSetMetrics response_1200W (world "FE80::1" [] 0) = Returned tt w' ∧
        currentGauge (metrics w') !! "r" = Some 10%float ∧
        currentGauge (metrics w') !! "t" = Some 5%float.
Proof.
  destruct (current_readings_are_tenths response_1200W [power_1200] current_10_5 []
              (world "FE80::1" [] 0))
    as (w' & Hrun & _ & _ & Hr & Ht & _);
    [reflexivity | reflexivity | reflexivity | reflexivity | reflexivity
    | constructor |].
  exists w'. split; [exact Hrun|]. split; [exact Hr | exact Ht].
Defined.

Lemma parse_failure_updates_no_reading_witness :
  let w := world "FE80::1" [ReplyQuery (inl response_unknown)] 0 in
  decoded_response w = Some response_unknown ∧
  ∃ w', scrape w = Returned tt w' ∧
        scrapeErrors (metrics w') = {[ errorTypeParse := 1 ]} ∧
        powerGauge (metrics w') = 0%float ∧
        currentGauge (metrics w') = ∅ ∧
        lastSuccessGauge (metrics w') = 0%float.
Proof.
  split; [reflexivity|].
  apply (parse_failure_updates_no_reading
           (world "FE80::1" [ReplyQuery (inl response_unknown)] 0)
           response_unknown); reflexivity.
Defined.

Lemma resolve_failure_ends_cycle_witness :
  let w := world EmptyString [ReplyIP (inr "no neighbor")] 0 in
  ∃ w', scrape w = Returned tt w' ∧
        non_log (cycle_events w (scrape w)) = [EvGetNeibourIP] ∧
        scrapeErrors (metrics w') = {[ errorTypeIPResolve := 1 ]}.
Proof.
  destruct (resolve_failure_ends_cycle (world EmptyString [ReplyIP (inr "no neighbor")] 0)
              "no neighbor" (mkDevice EmptyString []))
    as (w' & Hrun & _ & Hev & Hcount & _); [reflexivity | reflexivity |].
  exists w'. split; [exact Hrun|]. split; [exact Hev | exact Hcount].
Defined.

Lemma query_failure_after_reauth_witness :
  let w := world "FE80::1"
             [ReplyQuery (inr "timeout"); ReplyAuth None; ReplyQuery (inr "timeout")] 0 in
  ∃ w', scrape w = Returned tt w' ∧
        non_log (cycle_events w (scrape w))
        = [ EvQueryEchonetLite request 3; EvSleep 5000000000; EvAuthenticate;
            EvSleep 2000000000; EvQueryEchonetLite request 3 ] ∧
        clk w' = 7000000000 ∧
        scrapeErrors (metrics w') = {[ errorTypeQuery := 1 ]}.
Proof.
  destruct (query_failure_after_reauth
              (world "FE80::1"
                 [ReplyQuery (inr "timeout"); ReplyAuth None; ReplyQuery (inr "timeout")] 0)
              (mkDevice "FE80::1"
                 [ReplyQuery (inr "timeout"); ReplyAuth None; ReplyQuery (inr "timeout")])
              "timeout" "timeout"
              (mkDevice "FE80::1" [ReplyAuth None; ReplyQuery (inr "timeout")])
              (mkDevice "FE80::1" [ReplyQuery (inr "timeout")])
              (mkDevice "FE80::1" []))
    as (w' & Hrun & Hev & _ & _ & Hclk & Hcount & _);
    [reflexivity | reflexivity | reflexivity | reflexivity |].
  exists w'. split; [exact Hrun|]. split; [exact Hev|].
  split; [exact Hclk | exact Hcount].
Defined.



Lemma dse_enabled_unless_false_or_0_witness :
  env_plain !! "SMARTMETER_DSE" = None ∧
  useDSE_env env_plain = true ∧
  ∃ cfg, main_config 64 env_plain no_flags = Some cfg ∧ useDSE cfg = true.
Proof.
  split; [reflexivity|].
  apply (dse_enabled_unless_false_or_0 64 env_plain no_flags);
    [discriminate | discriminate | reflexivity | discriminate | discriminate].
Defined.

(** * Further properties of the code *)

(** ** The paths of a cycle *)

Section CyclePaths.
Context `{client : DeviceClient} `{clock : time.Clock}.

(** The loop leaves the stamp, the histogram and the counters alone, whether
    it returns or panics. *)
Lemma loop_metrics_frame (ps : list Property) :
  ∀ found (w : World),
    let w' := final (parseAndSetMetrics_loop ps found w) in
    lastSuccessGauge (metrics w') = lastSuccessGauge (metrics w) ∧
    scrapeDuration (metrics w') = scrapeDuration (metrics w) ∧
    scrapeErrors (metrics w') = scrapeErrors (metrics w).
Proof.
  induction ps as [|p ps IH]; intros found w; [done|]. cbn.
  assert (∀ m', lastSuccessGauge m' = lastSuccessGauge (metrics w) →
                scrapeDuration m' = scrapeDuration (metrics w) →
                scrapeErrors m' = scrapeErrors (metrics w) →
                let w' := final (parseAndSetMetrics_loop ps true (with_metrics w m')) in
                lastSuccessGauge (metrics w') = lastSuccessGauge (metrics w) ∧
                scrapeDuration (metrics w') = scrapeDuration (metrics w) ∧
                scrapeErrors (metrics w') = scrapeErrors (metrics w)) as Hstep.
  { intros m' H1 H2 H3. pose proof (IH true (with_metrics w m')) as IH'.
    cbv zeta in IH' |- *. destruct IH' as (Ha & Hb & Hc).
    rewrite Ha, Hb, Hc. done. }
  destruct (decide (EPC p = _)).
  { destruct (binary.BigEndian_Uint32 (EDT p)); [|done]. by apply Hstep. }
  destruct (decide (EPC p = _)); [|apply IH].
  destruct (slice.to 2 (EDT p)) as [hi|]; [|done].
  destruct (binary.BigEndian_Uint16 hi) eqn:Hhi;
    [|by prog_unfold; rewrite Hhi].
  destruct (slice.from 2 (EDT p)) as [lo|]; [|by prog_unfold; rewrite Hhi].
  destruct (binary.BigEndian_Uint16 lo) eqn:Hlo;
    [|by prog_unfold; rewrite Hhi, Hlo].
  prog_unfold. rewrite Hhi, Hlo. by apply Hstep.
Qed.

(** The three ways the decoder ends. *)
Lemma decoder_paths (response : Frame) (w : World) :
  let ps := Properties response in
  let m := decode (metrics w) ps in
  (forallb well_sized ps = false ∧
   ∃ r m', parseAndSetMetrics response w = Panicked r (with_metrics w m') ∧
           lastSuccessGauge m' = lastSuccessGauge (metrics w) ∧
           scrapeDuration m' = scrapeDuration (metrics w) ∧
           scrapeErrors m' = scrapeErrors (metrics w))
  ∨ (forallb well_sized ps = true ∧ existsb recognized ps = true ∧
     parseAndSetMetrics response w
     = Returned tt
         (mkWorld (dev w) (time.Now (clk w)).2
            (mkMetrics (powerGauge m) (currentGauge m)
               (Float64.of_int (time.Unix (time.Now (clk w)).1))
               (scrapeDuration m) (scrapeErrors m))
            (trace w ++ [EvLog (Slog LevelDebug "Scrape successful" [])])))
  ∨ (existsb recognized ps = false ∧
     parseAndSetMetrics response w
     = Returned tt
         (mkWorld (dev w) (clk w) (count_error (metrics w) errorTypeParse)
            (trace w ++ [EvLog (Slog LevelWarn
                                  "Response contained no recognized properties" [])]))).
Proof.
  intros ps m.
  destruct (forallb well_sized ps) eqn:Hall.
  - right. pose proof (parseAndSetMetrics_well_sized response w Hall) as Heq.
    cbv zeta in Heq. fold ps in Heq. fold m in Heq.
    destruct (existsb recognized ps) eqn:Hex; [left; by repeat split|].
    right. split; [done|]. rewrite Heq. subst m.
    by rewrite decode_unrecognized.
  - left. split; [done|].
    pose proof (loop_returns ps false w) as Hret. rewrite Hall in Hret.
    pose proof (loop_frame ps false w) as (Hd & Hc & Ht).
    pose proof (loop_metrics_frame ps false w) as (Hl & Hh & He).
    unfold parseAndSetMetrics. prog_unfold. fold ps.
    destruct (parseAndSetMetrics_loop ps false w) as [b w1|r w1]; [done|].
    cbn in *. exists r, (metrics w1). split; [|done].
    unfold with_metrics. rewrite <- Hd, <- Hc, <- Ht. by destruct w1.
Qed.

(** The five paths of a cycle's body, by the answers of the device: the
    state each leaves, or the state it hands to the decoder. *)
Lemma scrape_body_paths (w : World) :
  let c := (time.Now (clk w)).2 in
  let R := resolve_events w in
  let c1 := time.Sleep reAuthCooldown c in
  let c2 := time.Sleep postAuthCooldown c1 in
  (∃ err d,
      decoded_response w = None ∧ R = [EvGetNeibourIP] ∧
      scrape_body (started w)
      = Returned tt
          (mkWorld d c (count_error (metrics w) errorTypeIPResolve)
             (trace w ++ R
              ++ [EvLog (Slog LevelWarn "Failed to scan neighbor IP"
                           [("error", ArgError err)])])))
  ∨ (∃ r d1,
        decoded_response w = Some r ∧ clock_at_decoder w = c ∧
        scrape_body (started w)
        = parseAndSetMetrics r
            (mkWorld d1 c (metrics w)
               (trace w ++ R ++ [EvQueryEchonetLite request 3])))
  ∨ (∃ e1 authErr d2,
        decoded_response w = None ∧
        scrape_body (started w)
        = Returned tt
            (mkWorld d2 c1 (count_error (metrics w) errorTypeAuth)
               (trace w ++ R ++ reauth_events e1
                ++ [EvLog (Slog LevelWarn "Authentication failed"
                             [("error", ArgError authErr)])])))
  ∨ (∃ e1 e2 d3,
        decoded_response w = None ∧
        scrape_body (started w)
        = Returned tt
            (mkWorld d3 c2 (count_error (metrics w) errorTypeQuery)
               (trace w ++ R ++ reauth_events e1 ++ retry_events
                ++ [EvLog (Slog LevelWarn "Query failed after re-auth"
                             [("error", ArgError e2)])])))
  ∨ (∃ e1 r d3,
        decoded_response w = Some r ∧ clock_at_decoder w = c2 ∧
        scrape_body (started w)
        = parseAndSetMetrics r
            (mkWorld d3 c2 (metrics w)
               (trace w ++ R ++ reauth_events e1 ++ retry_events))).
Proof.
  intros c R c1 c2. subst c R c1 c2.
  unfold decoded_response, clock_at_decoder.
  destruct (device_at_query w) as [d0|] eqn:Hd.
  - rewrite scrape_body_eq, (resolve_falls_through w d0 Hd), scrape_query_eq. cbn.
    destruct (QueryEchonetLite d0 request 3) as [[r|e1] d1].
    { right. left. exists r, d1. by rewrite <- app_assoc. }
    destruct (Authenticate d1) as [[authErr|] d2].
    { right. right. left. exists e1, authErr, d2. by rewrite <- !app_assoc. }
    destruct (QueryEchonetLite d2 request 3) as [[r|e2] d3].
    + do 4 right. exists e1, r, d3. by rewrite <- !app_assoc.
    + do 3 right. left. exists e1, e2, d3. by rewrite <- !app_assoc.
  - left. unfold device_at_query, resolve_events in *.
    rewrite scrape_body_eq, scrape_resolve_eq. unfold started. cbn.
    destruct (decide (IPAddr (dev w) = EmptyString)); [|done].
    destruct (GetNeibourIP (dev w)) as [[ip|err] d]; [done|].
    exists err, d. by rewrite <- !app_assoc.
Qed.

Lemma scrape_final (w : World) :
  final (scrape w)
  = finished (time.Now (clk w)).1 (final (scrape_body (started w))) ∧
  returns (scrape w) = returns (scrape_body (started w)) ∧
  panicked (scrape w) = panicked (scrape_body (started w)).
Proof. rewrite scrape_eq. by destruct (scrape_body (started w)). Qed.

Lemma decode_frame (ps : list Property) :
  ∀ m,
    lastSuccessGauge (decode m ps) = lastSuccessGauge m ∧
    scrapeDuration (decode m ps) = scrapeDuration m ∧
    scrapeErrors (decode m ps) = scrapeErrors m.
Proof.
  induction ps as [|p ps IH]; intros m; [done|].
  cbn [decode foldl]. fold (decode (decode_property m p) ps).
  destruct (IH (decode_property m p)) as (-> & -> & ->).
  unfold decode_property. by repeat destruct (decide _).
Qed.

(** Splits a goal about the body of a cycle started in [w] into its paths:
    the three that end without a response, and for each of the two that
    decode one, the three ways the decoder ends. *)
Ltac cycle_paths w :=
  let Hp := fresh "Hp" in
  pose proof (scrape_body_paths w) as Hp; cbv zeta in Hp;
  destruct Hp as [(?err & ?d & Hresp & HR & Hbody)
                 |[(?r & ?d1 & Hresp & Hclock & Hbody)
                  |[(?e1 & ?authErr & ?d2 & Hresp & Hbody)
                   |[(?e1 & ?e2 & ?d3 & Hresp & Hbody)
                    |(?e1 & ?r & ?d3 & Hresp & Hclock & Hbody)]]]];
  rewrite Hbody; try rewrite Hclock;
  try match goal with
      | |- context [parseAndSetMetrics ?r ?W] =>
          let Hd := fresh "Hd" in
          pose proof (decoder_paths r W) as Hd; cbv zeta in Hd;
          destruct Hd as [(Hsized & ?reason & ?m' & Hdec & Hstamp & Hhist & Herrs)
                         |[(Hsized & Hrec & Hdec)
                          |(Hrec & Hdec)]];
          rewrite Hdec
      end.


Lemma cycle_events_of (w : World) evs :
  trace (final (scrape_body (started w))) = trace w ++ evs →
  cycle_events w (scrape w) = evs.
Proof.
  intros Ht. apply cycle_events_app.
  destruct (scrape_final w) as (-> & _ & _). exact Ht.
Qed.

(** X2.  The calls of a cycle to the device and to [time.Sleep] take one of
    four shapes: a failed resolution alone; or, after the resolution if one
    was needed, the query alone, the query with a cooldown and a
    re-authentication, or those with the second cooldown and the second
    query. So a cycle resolves and authenticates at most once each, queries
    at most twice, and never sleeps the second cooldown without the first. *)
Theorem cycle_calls_have_four_shapes (w : World) :
  let calls := non_log (cycle_events w (scrape w)) in
  calls = [EvGetNeibourIP]
  ∨ calls = resolve_events w ++ [EvQueryEchonetLite request 3]
  ∨ calls = resolve_events w
            ++ [EvQueryEchonetLite request 3; EvSleep reAuthCooldown; EvAuthenticate]
  ∨ calls = resolve_events w
            ++ [EvQueryEchonetLite request 3; EvSleep reAuthCooldown; EvAuthenticate;
                EvSleep postAuthCooldown; EvQueryEchonetLite request 3].
Proof.
  cbv zeta.
  assert (∀ evs, non_log (resolve_events w ++ evs)
                 = resolve_events w ++ non_log evs) as HR'.
  { intros evs. rewrite non_log_app. f_equal.
    unfold resolve_events. by destruct (decide _). }
  pose proof (scrape_body_paths w) as Hp; cbv zeta in Hp.
  destruct Hp as [(err & d & Hresp & HR & Hbody)
                 |[(r & d1 & Hresp & _ & Hbody)
                  |[(e1 & authErr & d2 & Hresp & Hbody)
                   |[(e1 & e2 & d3 & Hresp & Hbody)
                    |(e1 & r & d3 & Hresp & _ & Hbody)]]]].
  - left. erewrite (cycle_events_of w); [|rewrite Hbody; reflexivity].
    rewrite HR'. rewrite HR. reflexivity.
  - right. left.
    destruct (parseAndSetMetrics_frame r
                (mkWorld d1 (time.Now (clk w)).2 (metrics w)
                   (trace w ++ resolve_events w ++ [EvQueryEchonetLite request 3])))
      as (_ & evs & Ht & Hnl).
    erewrite (cycle_events_of w);
      [|rewrite Hbody, Ht; cbn [trace]; rewrite <- !app_assoc; reflexivity].
    rewrite HR', !non_log_app, Hnl. reflexivity.
  - right. right. left.
    erewrite (cycle_events_of w); [|rewrite Hbody; reflexivity].
    rewrite HR'. reflexivity.
  - do 3 right.
    erewrite (cycle_events_of w); [|rewrite Hbody; reflexivity].
    rewrite HR'. reflexivity.
  - do 3 right.
    destruct (parseAndSetMetrics_frame r
                (mkWorld d3
                   (time.Sleep postAuthCooldown
                      (time.Sleep reAuthCooldown (time.Now (clk w)).2))
                   (metrics w)
                   (trace w ++ resolve_events w ++ reauth_events e1 ++ retry_events)))
      as (_ & evs & Ht & Hnl).
    erewrite (cycle_events_of w);
      [|rewrite Hbody, Ht; cbn [trace]; rewrite <- !app_assoc; reflexivity].
    rewrite HR', !non_log_app, Hnl. reflexivity.
Qed.

(** X3.  Every cycle has one of three outcomes in the registry. It panics,
    and then no counter and no stamp has changed; or it succeeds, the
    last-success gauge holds the Unix seconds of a reading of the clock as
    it was handed to the decoder and no counter has changed; or it counts a failure: one of the four labels is
    incremented by one, and the stamp and all three readings are as before. *)
Theorem cycle_counts_one_outcome (w : World) :
  let m := metrics w in
  let m' := metrics (final (scrape w)) in
  (returns (scrape w) = false ∧
   scrapeErrors m' = scrapeErrors m ∧ lastSuccessGauge m' = lastSuccessGauge m)
  ∨ (returns (scrape w) = true ∧ scrapeErrors m' = scrapeErrors m ∧
     lastSuccessGauge m'
     = Float64.of_int (time.Unix (time.Now (clock_at_decoder w)).1))
  ∨ (returns (scrape w) = true ∧
     ∃ label,
       label ∈ [errorTypeIPResolve; errorTypeAuth; errorTypeQuery; errorTypeParse] ∧
       scrapeErrors m' = <[label := counter_value m label + 1]> (scrapeErrors m) ∧
       lastSuccessGauge m' = lastSuccessGauge m ∧
       powerGauge m' = powerGauge m ∧ currentGauge m' = currentGauge m).
Proof.
  cbv zeta. destruct (scrape_final w) as (-> & -> & _).
  unfold finished. cbn [metrics scrapeErrors lastSuccessGauge powerGauge currentGauge].
  cycle_paths w; cbn.
  - do 2 right. split; [done|]. exists errorTypeIPResolve.
    split; [set_solver|done].
  - left. by rewrite Herrs, Hstamp.
  - right. left. split; [done|].
    by destruct (decode_frame (Properties r) (metrics w)) as (_ & _ & ->).
  - do 2 right. split; [done|]. exists errorTypeParse.
    split; [set_solver|done].
  - do 2 right. split; [done|]. exists errorTypeAuth.
    split; [set_solver|done].
  - do 2 right. split; [done|]. exists errorTypeQuery.
    split; [set_solver|done].
  - left. by rewrite Herrs, Hstamp.
  - right. left. split; [done|].
    by destruct (decode_frame (Properties r) (metrics w)) as (_ & _ & ->).
  - do 2 right. split; [done|]. exists errorTypeParse.
    split; [set_solver|done].
Qed.

(** *** When a cycle panics *)

Lemma loop_panic_reason (ps : list Property) :
  ∀ found (w : World) reason,
    panicked (parseAndSetMetrics_loop ps found w) = Some reason →
    reason = IndexOutOfRange ∨ reason = SliceBoundsOutOfRange.
Proof.
  induction ps as [|p ps IH]; intros found w reason; [done|]. cbn.
  destruct (decide (EPC p = _)).
  { destruct (binary.BigEndian_Uint32 (EDT p)); cbn.
    - apply (IH true (with_metrics w _)).
    - intros [= <-]. by left. }
  destruct (decide (EPC p = _)); [|apply IH].
  destruct (slice.to 2 (EDT p)) as [hi|]; [|intros [= <-]; by right].
  destruct (binary.BigEndian_Uint16 hi) eqn:Hhi;
    [|prog_unfold; rewrite Hhi; intros [= <-]; by left].
  destruct (slice.from 2 (EDT p)) as [lo|];
    [|prog_unfold; rewrite Hhi; intros [= <-]; by right].
  destruct (binary.BigEndian_Uint16 lo) eqn:Hlo;
    [|prog_unfold; rewrite Hhi, Hlo; intros [= <-]; by left].
  prog_unfold. rewrite Hhi, Hlo. apply (IH true (with_metrics w _)).
Qed.

Lemma parseAndSetMetrics_panic_reason (response : Frame) (w : World) reason :
  panicked (parseAndSetMetrics response w) = Some reason →
  reason = IndexOutOfRange ∨ reason = SliceBoundsOutOfRange.
Proof.
  unfold parseAndSetMetrics. prog_unfold.
  pose proof (loop_panic_reason (Properties response) false w reason) as Hloop.
  destruct (parseAndSetMetrics_loop _ _ _) as [[] w1|r w1]; cbn in Hloop |- *;
    [|done..].
  unfold time_Now. prog_unfold. by destruct (time.Now (clk w1)).
Qed.

Lemma scrape_panic_reason (w : World) reason :
  panicked (scrape w) = Some reason →
  reason = IndexOutOfRange ∨ reason = SliceBoundsOutOfRange.
Proof.
  destruct (scrape_final w) as (_ & _ & ->).
  pose proof (scrape_body_paths w) as Hp; cbv zeta in Hp.
  destruct Hp as [(err & d & _ & _ & ->)
                 |[(r & d1 & _ & _ & ->)
                  |[(e1 & authErr & d2 & _ & ->)
                   |[(e1 & e2 & d3 & _ & ->)
                    |(e1 & r & d3 & _ & _ & ->)]]]];
    try done; apply parseAndSetMetrics_panic_reason.
Qed.

Lemma short_property_exists (ps : list Property) :
  forallb well_sized ps = false ↔
  ∃ p, p ∈ ps ∧ recognized p = true ∧ (length (EDT p) < 4)%nat.
Proof.
  induction ps as [|p ps IH]; cbn.
  - split; [done|]. intros (p & Hin & _). by apply elem_of_nil in Hin.
  - rewrite andb_false_iff, IH. split.
    + intros [Hp|(q & Hin & Hq)].
      * exists p. split; [left|]. unfold well_sized in Hp.
        apply orb_false_iff in Hp as (Hrec & Hlen).
        apply negb_false_iff in Hrec. apply Nat.leb_gt in Hlen. done.
      * exists q. split; [by right|done].
    + intros (q & Hin & Hrec & Hlen).
      apply elem_of_cons in Hin as [->|Hin].
      * left. unfold well_sized. rewrite Hrec. cbn [negb orb]. by apply Nat.leb_gt.
      * right. by exists q.
Qed.

(** X4.  A cycle panics exactly when the response it decodes, from the first
    query or from the retry, holds a power or current property of fewer than
    four bytes, wherever in the response it stands and whatever the other
    properties are. The panic is then one of the two run-time errors of an
    access out of bounds. *)
Theorem cycle_panics_exactly_on_short_payload (w : World) :
  (returns (scrape w) = false ↔
   ∃ response p,
     decoded_response w = Some response ∧ p ∈ Properties response ∧
     recognized p = true ∧ (length (EDT p) < 4)%nat) ∧
  (∀ reason, panicked (scrape w) = Some reason →
             reason = IndexOutOfRange ∨ reason = SliceBoundsOutOfRange).
Proof.
  split; [|apply scrape_panic_reason].
  rewrite scrape_returns.
  destruct (decoded_response w) as [response|].
  - rewrite short_property_exists. split.
    + intros (p & Hp). by exists response, p.
    + intros (r & p & [= <-] & Hp). by exists p.
  - split; [done|]. by intros (r & p & [=] & _).
Qed.

(** *** The paths, one by one *)

Lemma cycle_events_body (w : World) :
  cycle_events w (scrape w)
  = drop (length (trace w)) (trace (final (scrape_body (started w)))).
Proof. unfold cycle_events. by destruct (scrape_final w) as (-> & _). Qed.

(** States a goal about the cycle started in [w] on its body, and splits it
    into the paths of [cycle_paths]. *)
Ltac cycle_cases w :=
  rewrite ?cycle_events_body;
  let Hf := fresh in
  let Hr := fresh in
  let Hp := fresh in
  destruct (scrape_final w) as (Hf & Hr & Hp);
  rewrite ?Hf, ?Hr, ?Hp; clear Hf Hr Hp;
  unfold finished;
  cbn [metrics scrapeErrors lastSuccessGauge powerGauge currentGauge
       scrapeDuration dev clk trace];
  cycle_paths w;
  cbn [final returns panicked metrics scrapeErrors lastSuccessGauge powerGauge
       currentGauge scrapeDuration dev clk trace with_metrics count_error];
  rewrite <- ?app_assoc, ?drop_app_length.

(** X5.  A response that holds one of the two readings is a success: the
    cycle returns, counts no error and stamps the last success with the Unix
    seconds of a reading of the clock as it was handed to the decoder, and
    the gauge whose property is absent keeps the value of an earlier
    cycle. *)
Theorem partial_response_is_a_success (w : World) (response : Frame) :
  decoded_response w = Some response →
  forallb well_sized (Properties response) = true →
  existsb recognized (Properties response) = true →
  let m := metrics w in
  let m' := metrics (final (scrape w)) in
  returns (scrape w) = true ∧
  scrapeErrors m' = scrapeErrors m ∧
  lastSuccessGauge m'
  = Float64.of_int (time.Unix (time.Now (clock_at_decoder w)).1) ∧
  ((∀ p, p ∈ Properties response →
         EPC p ≠ LvSmartElectricEnergyMeter_InstantaneousElectricPower) →
   powerGauge m' = powerGauge m) ∧
  ((∀ p, p ∈ Properties response →
         EPC p ≠ LvSmartElectricEnergyMeter_InstantaneousCurrent) →
   currentGauge m' = currentGauge m).
Proof.
  intros Hdecoded Hall Hsome. cbv zeta.
  cycle_cases w; try congruence;
    assert (r = response) as -> by congruence; try congruence.
  all: destruct (decode_frame (Properties response) (metrics w)) as (_ & _ & ->).
  all: split; [done|]; split; [done|]; split; [done|].
  all: split; intros Hnone.
  all: try by apply decode_keeps_power, Forall_forall.
  all: try by apply decode_keeps_current, Forall_forall.
Qed.

(** X6.  The path on which the query fails and the re-authentication fails
    too. The cycle sleeps the first cooldown only, does not query again,
    counts one [auth] error and nothing else, leaves the readings and the
    stamp, and goes on with the device as the failed authentication left it. *)
Theorem auth_failure_ends_cycle (w : World) d0 (e1 authErr : error) d1 d2 :
  device_at_query w = Some d0 →
  QueryEchonetLite d0 request 3 = (inr e1, d1) →
  Authenticate d1 = (Some authErr, d2) →
  let m := metrics w in
  let m' := metrics (final (scrape w)) in
  returns (scrape w) = true ∧
  dev (final (scrape w)) = d2 ∧
  non_log (cycle_events w (scrape w))
  = resolve_events w
    ++ [EvQueryEchonetLite request 3; EvSleep reAuthCooldown; EvAuthenticate] ∧
  scrapeErrors m'
  = <[errorTypeAuth := counter_value m errorTypeAuth + 1]> (scrapeErrors m) ∧
  powerGauge m' = powerGauge m ∧ currentGauge m' = currentGauge m ∧
  lastSuccessGauge m' = lastSuccessGauge m.
Proof.
  intros Hd Hq Ha. cbv zeta.
  assert (scrape_body (started w)
          = Returned tt
              (mkWorld d2 (time.Sleep reAuthCooldown (time.Now (clk w)).2)
                 (count_error (metrics w) errorTypeAuth)
                 (trace w ++ resolve_events w ++ reauth_events e1
                  ++ [EvLog (Slog LevelWarn "Authentication failed"
                               [("error", ArgError authErr)])]))) as Hbody.
  { rewrite scrape_body_eq, (resolve_falls_through w d0 Hd), scrape_query_eq.
    cbn. rewrite Hq, Ha. by rewrite <- !app_assoc. }
  rewrite cycle_events_body.
  destruct (scrape_final w) as (-> & -> & _). rewrite Hbody.
  cbn [final returns finished dev metrics trace count_error scrapeErrors
       powerGauge currentGauge lastSuccessGauge].
  rewrite drop_app_length, non_log_app.
  repeat split. f_equal. unfold resolve_events. by destruct (decide _).
Qed.

(** X7.  A failure that the re-authentication repairs is not counted: when
    the first query fails, the re-authentication succeeds and the second
    query answers a response the decoder can read with a reading in it, the
    cycle is a success like any other. It has slept both cooldowns, no
    counter has moved, the readings are those of the second answer, and the
    last success is stamped with the Unix seconds of a reading the clock
    gives after both sleeps. *)
Theorem repaired_query_is_a_success
  (w : World) d0 (e1 : error) d1 d2 (response : Frame) d3 :
  device_at_query w = Some d0 →
  QueryEchonetLite d0 request 3 = (inr e1, d1) →
  Authenticate d1 = (None, d2) →
  QueryEchonetLite d2 request 3 = (inl response, d3) →
  forallb well_sized (Properties response) = true →
  existsb recognized (Properties response) = true →
  let m := metrics w in
  let m' := metrics (final (scrape w)) in
  returns (scrape w) = true ∧
  dev (final (scrape w)) = d3 ∧
  non_log (cycle_events w (scrape w))
  = resolve_events w
    ++ [EvQueryEchonetLite request 3; EvSleep reAuthCooldown; EvAuthenticate;
        EvSleep postAuthCooldown; EvQueryEchonetLite request 3] ∧
  scrapeErrors m' = scrapeErrors m ∧
  powerGauge m' = powerGauge (decode m (Properties response)) ∧
  currentGauge m' = currentGauge (decode m (Properties response)) ∧
  lastSuccessGauge m'
  = Float64.of_int
      (time.Unix
         (time.Now (time.Sleep postAuthCooldown
                      (time.Sleep reAuthCooldown (time.Now (clk w)).2))).1).
Proof.
  intros Hd Hq Ha Hq' Hall Hsome. cbv zeta.
  set (w2 := mkWorld d3
               (time.Sleep postAuthCooldown
                  (time.Sleep reAuthCooldown (time.Now (clk w)).2))
               (metrics w)
               (trace w ++ resolve_events w ++ reauth_events e1 ++ retry_events)).
  assert (scrape_body (started w) = parseAndSetMetrics response w2) as Hbody.
  { rewrite scrape_body_eq, (resolve_falls_through w d0 Hd), scrape_query_eq.
    cbn. rewrite Hq, Ha, Hq'. subst w2. by rewrite <- !app_assoc. }
  pose proof (parseAndSetMetrics_well_sized response w2 Hall) as Hdec.
  cbv zeta in Hdec. rewrite Hsome in Hdec.
  rewrite cycle_events_body.
  destruct (scrape_final w) as (-> & -> & _). rewrite Hbody, Hdec.
  subst w2.
  cbn [final returns finished dev metrics trace scrapeErrors
       powerGauge currentGauge lastSuccessGauge].
  destruct (decode_frame (Properties response) (metrics w)) as (_ & _ & ->).
  rewrite <- !app_assoc, drop_app_length, !non_log_app.
  repeat split.
  f_equal. unfold resolve_events. by destruct (decide _).
Qed.

(** *** What a cycle logs *)

Lemma output_app (minimum : SlogLevel) (t1 t2 : list Event) :
  output minimum (t1 ++ t2) = output minimum t1 ++ output minimum t2.
Proof. apply filter_app. Qed.

Lemma output_resolve_events (minimum : SlogLevel) (w : World) :
  output minimum (resolve_events w) = [].
Proof. unfold resolve_events. by destruct (decide _). Qed.

(** X8.  With a verbosity of zero or below a cycle writes nothing at all,
    whatever happens in it: [levelFromVerbosity] sets the handler to the
    error level, and no call of [scrape] or [parseAndSetMetrics] logs at that
    level, a counted failure and a failed authentication included. *)
Theorem quiet_verbosity_silences_every_cycle (w : World) (verbosity : Z) :
  verbosity <= 0 →
  output (levelFromVerbosity verbosity) (cycle_events w (scrape w)) = [].
Proof.
  intros Hv. unfold levelFromVerbosity.
  rewrite (proj2 (Z.leb_le _ _) Hv).
  cycle_cases w; rewrite ?output_app, ?output_resolve_events; reflexivity.
Qed.

Lemma errors_total_count (m : Metrics) (label : string) :
  label ∈ [errorTypeIPResolve; errorTypeAuth; errorTypeQuery; errorTypeParse] →
  errors_total (count_error m label) = errors_total m + 1.
Proof.
  intros Hin. unfold errors_total, count_error, counter_value.
  cbn [scrapeErrors]. unfold counter_value.
  repeat (apply elem_of_cons in Hin as [->|Hin]);
    [..|by apply elem_of_nil in Hin];
    rewrite lookup_insert_eq, !lookup_insert_ne by done;
    destruct (scrapeErrors m !! errorTypeIPResolve),
             (scrapeErrors m !! errorTypeAuth),
             (scrapeErrors m !! errorTypeQuery),
             (scrapeErrors m !! errorTypeParse); cbn; lia.
Qed.

Lemma errors_total_ext (m m' : Metrics) :
  scrapeErrors m' = scrapeErrors m → errors_total m' = errors_total m.
Proof. unfold errors_total, counter_value. by intros ->. Qed.

(** X9.  Every counted failure is logged as one warning, and nothing else is:
    in any cycle, either exactly one record at the warning level or above is
    logged and the four counters together have grown by one, or no such
    record is logged and no counter has moved. (A panic is of the second
    kind: it is neither counted nor logged.) *)
Theorem warning_iff_failure_counted (w : World) :
  let warnings := output LevelWarn (cycle_events w (scrape w)) in
  let m := metrics w in
  let m' := metrics (final (scrape w)) in
  (length warnings = 1%nat ∧ errors_total m' = errors_total m + 1)
  ∨ (warnings = [] ∧ errors_total m' = errors_total m).
Proof.
  cbv zeta.
  assert (∀ label (m' : Metrics),
            label ∈ [errorTypeIPResolve; errorTypeAuth; errorTypeQuery;
                     errorTypeParse] →
            scrapeErrors m' = scrapeErrors (count_error (metrics w) label) →
            errors_total m' = errors_total (metrics w) + 1) as Hcount.
  { intros label m' Hin Heq.
    by rewrite (errors_total_ext _ _ Heq), errors_total_count. }
  cycle_cases w; rewrite ?output_app, ?output_resolve_events.
  - left. split; [done|]. apply (Hcount errorTypeIPResolve); [set_solver|done].
  - right. split; [done|]. by apply errors_total_ext.
  - right. split; [done|]. apply errors_total_ext. cbn.
    by destruct (decode_frame (Properties r) (metrics w)) as (_ & _ & ->).
  - left. split; [done|]. apply (Hcount errorTypeParse); [set_solver|done].
  - left. split; [done|]. apply (Hcount errorTypeAuth); [set_solver|done].
  - left. split; [done|]. apply (Hcount errorTypeQuery); [set_solver|done].
  - right. split; [done|]. by apply errors_total_ext.
  - right. split; [done|]. apply errors_total_ext. cbn.
    by destruct (decode_frame (Properties r) (metrics w)) as (_ & _ & ->).
  - left. split; [done|]. apply (Hcount errorTypeParse); [set_solver|done].
Qed.

(** *** Many cycles *)

(** The counters after the body of a cycle: as before, or one label counted. *)
Lemma body_errors_cases (w : World) :
  let mb := metrics (final (scrape_body (started w))) in
  scrapeErrors mb = scrapeErrors (metrics w)
  ∨ ∃ label,
      label ∈ [errorTypeIPResolve; errorTypeAuth; errorTypeQuery; errorTypeParse] ∧
      scrapeErrors mb = scrapeErrors (count_error (metrics w) label).
Proof.
  cbv zeta. cycle_paths w; cbn.
  - right. exists errorTypeIPResolve. split; [set_solver|done].
  - by left.
  - left. by destruct (decode_frame (Properties r) (metrics w)) as (_ & _ & ->).
  - right. exists errorTypeParse. split; [set_solver|done].
  - right. exists errorTypeAuth. split; [set_solver|done].
  - right. exists errorTypeQuery. split; [set_solver|done].
  - by left.
  - left. by destruct (decode_frame (Properties r) (metrics w)) as (_ & _ & ->).
  - right. exists errorTypeParse. split; [set_solver|done].
Qed.

(** One cycle moves no counter down and the four together up by one at
    most. *)
Lemma cycle_counter_step (w : World) :
  let m := metrics w in
  let m' := metrics (final (scrape w)) in
  (∀ label, counter_value m label <= counter_value m' label) ∧
  errors_total m <= errors_total m' <= errors_total m + 1.
Proof.
  cbv zeta.
  assert (∀ label (m' : Metrics),
            label ∈ [errorTypeIPResolve; errorTypeAuth; errorTypeQuery;
                     errorTypeParse] →
            scrapeErrors m' = scrapeErrors (count_error (metrics w) label) →
            (∀ l, counter_value (metrics w) l <= counter_value m' l) ∧
            errors_total (metrics w) <= errors_total m'
            <= errors_total (metrics w) + 1) as Hcount.
  { intros label m' Hin Heq. split.
    - intros l. unfold counter_value at 2. rewrite Heq. cbn [count_error scrapeErrors].
      destruct (decide (label = l)) as [->|Hne].
      + rewrite lookup_insert_eq. cbn. lia.
      + rewrite lookup_insert_ne by done. done.
    - rewrite (errors_total_ext _ _ Heq), errors_total_count by done. lia. }
  assert (∀ m' : Metrics,
            scrapeErrors m' = scrapeErrors (metrics w) →
            (∀ l, counter_value (metrics w) l <= counter_value m' l) ∧
            errors_total (metrics w) <= errors_total m'
            <= errors_total (metrics w) + 1) as Hsame.
  { intros m' Heq. rewrite (errors_total_ext _ _ Heq). split; [|lia].
    intros l. unfold counter_value. by rewrite Heq. }
  destruct (scrape_final w) as (-> & _ & _). unfold finished. cbn [metrics].
  destruct (body_errors_cases w) as [Heq|(label & Hin & Heq)].
  - by apply Hsame.
  - by apply (Hcount label).
Qed.

Lemma scrape_observes (w : World) :
  length (scrapeDuration (metrics (final (scrape w))))
  = S (length (scrapeDuration (metrics w))).
Proof.
  destruct (scrape_final w) as (-> & _ & _). unfold finished.
  cbn [metrics scrapeDuration]. rewrite length_app. cbn.
  enough (scrapeDuration (metrics (final (scrape_body (started w))))
          = scrapeDuration (metrics w)) as -> by lia.
  cycle_paths w; cbn; try done.
  all: by destruct (decode_frame (Properties r) (metrics w)) as (_ & -> & _).
Qed.

Lemma scrape_trace_extends (w : World) :
  ∃ evs, trace (final (scrape w)) = trace w ++ evs.
Proof.
  destruct (scrape_final w) as (-> & _ & _). unfold finished. cbn [trace].
  cycle_paths w; cbn [final trace with_metrics]; rewrite <- ?app_assoc;
    by eexists.
Qed.

Lemma scrape_times_trace_extends (n : nat) :
  ∀ w : World, ∃ evs, trace (final (scrape_times n w)) = trace w ++ evs.
Proof.
  induction n as [|n IH]; intros w; cbn [scrape_times].
  - exists []. by rewrite app_nil_r.
  - prog_unfold. destruct (scrape_trace_extends w) as (evs & Ht).
    destruct (scrape w) as [[] w1|r w1]; cbn in Ht |- *; [|by eexists].
    destruct (IH w1) as (evs' & ->). rewrite Ht, <- app_assoc. by eexists.
Qed.

(** A run of cycles ends at the first one that panics: it observes one
    duration per cycle it started. *)
Lemma scrape_times_observes (n : nat) :
  ∀ w : World,
    let m' := metrics (final (scrape_times n w)) in
    (length (scrapeDuration m') <= length (scrapeDuration (metrics w)) + n)%nat ∧
    (returns (scrape_times n w) = true →
     length (scrapeDuration m') = (length (scrapeDuration (metrics w)) + n)%nat).
Proof.
  induction n as [|n IH]; intros w; cbn [scrape_times].
  - cbn. split; [lia|intros _; lia].
  - prog_unfold. pose proof (scrape_observes w) as Hone.
    destruct (scrape w) as [[] w1|r w1]; cbn in Hone |- *.
    + destruct (IH w1) as (Hle & Heq). cbv zeta in Hle, Heq.
      split; [lia|]. intros Hret. rewrite (Heq Hret). lia.
    + split; [lia|done].
Qed.

Lemma scrape_times_panic_reason (n : nat) :
  ∀ (w : World) reason,
    panicked (scrape_times n w) = Some reason →
    reason = IndexOutOfRange ∨ reason = SliceBoundsOutOfRange.
Proof.
  induction n as [|n IH]; intros w reason; cbn [scrape_times]; [done|].
  prog_unfold. pose proof (scrape_panic_reason w reason) as Hone.
  destruct (scrape w) as [[] w1|r w1]; cbn in Hone |- *; [apply IH|done].
Qed.

(** X10.  Over any number of cycles no error counter ever goes down, and the
    four together grow by at most the number of cycles: a cycle counts one
    failure at most, also when it runs the whole recovery. *)
Theorem counters_grow_by_one_per_cycle_at_most (n : nat) (w : World) :
  let m := metrics w in
  let m' := metrics (final (scrape_times n w)) in
  (∀ label, counter_value m label <= counter_value m' label) ∧
  errors_total m <= errors_total m' <= errors_total m + Z.of_nat n.
Proof.
  cbv zeta. revert w. induction n as [|n IH]; intros w; cbn [scrape_times].
  - cbn. split; [done|lia].
  - prog_unfold. pose proof (cycle_counter_step w) as (Hl & Ht).
    destruct (scrape w) as [[] w1|r w1]; cbn in Hl, Ht |- *.
    + destruct (IH w1) as (Hl' & Ht'). split; [|lia].
      intros label. specialize (Hl label). specialize (Hl' label). lia.
    + split; [done|lia].
Qed.

(** X11.  [runScrapeLoop] with a positive interval logs its start, scrapes
    once at once and then once per tick: when it returns after [ticks] ticks,
    the histogram has [ticks + 1] observations more than before. *)
Theorem loop_scrapes_at_start_and_per_tick (interval : Z) (ticks : nat) (w : World) :
  0 < interval →
  returns (runScrapeLoop interval ticks w) = true →
  length (scrapeDuration (metrics (final (runScrapeLoop interval ticks w))))
  = (length (scrapeDuration (metrics w)) + ticks + 1)%nat ∧
  ∃ evs, trace (final (runScrapeLoop interval ticks w))
         = trace w ++ EvLog (Slog LevelInfo "First scrape starting" []) :: evs.
Proof.
  unfold runScrapeLoop. intros Hpos. rewrite (proj2 (Z.leb_gt _ _) Hpos).
  set (w0 := mkWorld (dev w) (clk w) (metrics w)
               (trace w ++ [EvLog (Slog LevelInfo "First scrape starting" [])])).
  assert (∀ k : Prog unit,
            (mret tt;; logger_Info "First scrape starting" [];; k) w = k w0)
    as Hstart by done.
  rewrite Hstart.
  change ((scrape;; scrape_times ticks) w0) with (scrape_times (S ticks) w0).
  intros Hret.
  destruct (scrape_times_observes (S ticks) w0) as (_ & Heq).
  cbv zeta in Heq. rewrite (Heq Hret). split; [cbn; lia|].
  destruct (scrape_times_trace_extends (S ticks) w0) as (evs & ->).
  exists evs. subst w0. cbn [trace]. by rewrite <- app_assoc.
Qed.

(** X12.  Where [int] has 32 bits the loop always starts: for every
    environment and every command line with which [main] gets as far as the
    loop, the interval it passes is one [time.NewTicker] accepts, so the loop
    never ends in the ticker's panic, and it logs its start. *)
Theorem loop_starts_on_32_bit env flags cfg (ticks : nat) (w : World) :
  main_config 32 env flags = Some cfg →
  panicked (runScrapeLoop (interval cfg) ticks w) ≠ Some NonPositiveTickerInterval ∧
  ∃ evs, trace (final (runScrapeLoop (interval cfg) ticks w))
         = trace w ++ EvLog (Slog LevelInfo "First scrape starting" []) :: evs.
Proof.
  intros Hcfg. pose proof (interval_floor_32 env flags cfg Hcfg) as Hfloor.
  assert (0 < interval cfg) as Hpos by (unfold time.Second in Hfloor; lia).
  unfold runScrapeLoop. rewrite (proj2 (Z.leb_gt _ _) Hpos).
  set (w0 := mkWorld (dev w) (clk w) (metrics w)
               (trace w ++ [EvLog (Slog LevelInfo "First scrape starting" [])])).
  assert (∀ k : Prog unit,
            (mret tt;; logger_Info "First scrape starting" [];; k) w = k w0)
    as Hstart by done.
  rewrite Hstart.
  change ((scrape;; scrape_times ticks) w0) with (scrape_times (S ticks) w0).
  split.
  - intros Hp. by destruct (scrape_times_panic_reason _ _ _ Hp).
  - destruct (scrape_times_trace_extends (S ticks) w0) as (evs & ->).
    exists evs. subst w0. cbn [trace]. by rewrite <- app_assoc.
Qed.


(** *** The address and the labels *)

(** X13.  A cycle calls [GetNeibourIP] exactly when the device holds no
    address at its start, and then that call is the first thing it does. A
    resolution that failed is therefore tried again by the next cycle, as
    long as the device is still without an address, and a device with an
    address is never asked for one. *)
Theorem resolution_iff_no_address (w : World) :
  (EvGetNeibourIP ∈ cycle_events w (scrape w)
   ↔ IPAddr (dev w) = EmptyString) ∧
  (IPAddr (dev w) = EmptyString →
   hd_error (cycle_events w (scrape w)) = Some EvGetNeibourIP).
Proof.
  cycle_cases w; unfold resolve_events, reauth_events, retry_events;
    destruct (decide (IPAddr (dev w) = EmptyString)) as [He|Hne];
    cbn [app hd_error]; try discriminate.
  all: split; [|done].
  all: split; [intros Hin|done || (intros _; by left)].
  all: try done.
  all: exfalso;
    repeat (apply elem_of_cons in Hin as [Hin|Hin]; [discriminate|]);
    by apply elem_of_nil in Hin.
Qed.

Lemma loop_labels (ps : list Property) :
  ∀ found (w : World) (label : string),
    label ≠ "r" → label ≠ "t" →
    currentGauge (metrics (final (parseAndSetMetrics_loop ps found w))) !! label
    = currentGauge (metrics w) !! label.
Proof.
  induction ps as [|p ps IH]; intros found w label Hr Ht; [done|]. cbn.
  destruct (decide (EPC p = _)).
  { destruct (binary.BigEndian_Uint32 (EDT p)); [|done].
    etrans; [by apply IH|]. done. }
  destruct (decide (EPC p = _)); [|by apply IH].
  destruct (slice.to 2 (EDT p)) as [hi|]; [|done].
  destruct (binary.BigEndian_Uint16 hi) eqn:Hhi;
    [|by prog_unfold; rewrite Hhi].
  destruct (slice.from 2 (EDT p)) as [lo|]; [|by prog_unfold; rewrite Hhi].
  destruct (binary.BigEndian_Uint16 lo) eqn:Hlo;
    [|by prog_unfold; rewrite Hhi, Hlo].
  prog_unfold. rewrite Hhi, Hlo.
  etrans; [by apply IH|]. cbn.
  by rewrite !lookup_insert_ne by done.
Qed.

Lemma parseAndSetMetrics_labels (response : Frame) (w : World) (label : string) :
  label ≠ "r" → label ≠ "t" →
  currentGauge (metrics (final (parseAndSetMetrics response w))) !! label
  = currentGauge (metrics w) !! label.
Proof.
  intros Hr Ht. unfold parseAndSetMetrics. prog_unfold.
  pose proof (loop_labels (Properties response) false w label Hr Ht) as Hloop.
  destruct (parseAndSetMetrics_loop _ _ _) as [[] w1|r w1]; cbn in Hloop |- *;
    [|done..].
  unfold time_Now. prog_unfold. by destruct (time.Now (clk w1)).
Qed.

Lemma scrape_labels (w : World) (label : string) :
  let m' := metrics (final (scrape w)) in
  (label ≠ "r" → label ≠ "t" →
   currentGauge m' !! label = currentGauge (metrics w) !! label) ∧
  (label ∉ [errorTypeIPResolve; errorTypeAuth; errorTypeQuery; errorTypeParse] →
   scrapeErrors m' !! label = scrapeErrors (metrics w) !! label).
Proof.
  cbv zeta. destruct (scrape_final w) as (-> & _ & _). unfold finished.
  cbn [metrics currentGauge scrapeErrors]. split.
  - intros Hr Ht.
    pose proof (scrape_body_paths w) as Hp; cbv zeta in Hp.
    destruct Hp as [(err & d & _ & _ & ->)
                   |[(r & d1 & _ & _ & ->)
                    |[(e1 & authErr & d2 & _ & ->)
                     |[(e1 & e2 & d3 & _ & ->)
                      |(e1 & r & d3 & _ & _ & ->)]]]];
      try done; by rewrite parseAndSetMetrics_labels.
  - intros Hlabel.
    destruct (body_errors_cases w) as [->|(l & Hin & ->)]; [done|].
    cbn [count_error scrapeErrors]. rewrite lookup_insert_ne; [done|].
    intros ->. done.
Qed.

(** X14.  The exporter's label sets are closed: however many cycles run and
    however they end, the current gauge gets no label other than [r] and [t]
    and the error counter none other than the four error types. A child under
    any other label is as it was at the start, so with the registry of [init]
    there is none. *)
Theorem label_sets_are_closed (n : nat) (w : World) (label : string) :
  let m' := metrics (final (scrape_times n w)) in
  (label ≠ "r" → label ≠ "t" →
   currentGauge m' !! label = currentGauge (metrics w) !! label) ∧
  (label ∉ [errorTypeIPResolve; errorTypeAuth; errorTypeQuery; errorTypeParse] →
   scrapeErrors m' !! label = scrapeErrors (metrics w) !! label).
Proof.
  cbv zeta. revert w. induction n as [|n IH]; intros w; cbn [scrape_times]; [done|].
  prog_unfold. pose proof (scrape_labels w label) as (Hg & Hc).
  destruct (scrape w) as [[] w1|r w1]; cbn in Hg, Hc |- *; [|done].
  destruct (IH w1) as (Hg' & Hc'). split.
  - intros Hr Ht. by rewrite Hg', Hg.
  - intros Hl. by rewrite Hc', Hc.
Qed.

(** ** What the decoder reads *)

Lemma loop_recognized (p : Property) rest found (w : World) :
  recognized p = true → (4 <= length (EDT p))%nat →
  parseAndSetMetrics_loop (p :: rest) found w
  = parseAndSetMetrics_loop rest true (with_metrics w (decode_property (metrics w) p)).
Proof.
  intros Hrec Hlen. unfold recognized in Hrec.
  apply orb_prop in Hrec as [Hx|Hx]; apply bool_decide_eq_true in Hx;
    [by apply loop_power | by apply loop_current].
Qed.

(** The panic of a short property is the same whatever follows it. *)
Lemma loop_short_reason (p : Property) :
  recognized p = true → (length (EDT p) < 4)%nat →
  ∃ r, ∀ rest found (w : World),
    parseAndSetMetrics_loop (p :: rest) found w = Panicked r w.
Proof.
  intros Hrec Hlen.
  destruct (decide (EPC p = LvSmartElectricEnergyMeter_InstantaneousElectricPower)) as [Hp|Hp].
  - exists IndexOutOfRange. intros rest found w. simpl.
    rewrite decide_True by done. by rewrite BigEndian_Uint32_short by done.
  - unfold recognized in Hrec.
    rewrite (bool_decide_eq_false_2 _ Hp) in Hrec. simpl in Hrec.
    apply bool_decide_eq_true in Hrec.
    destruct (EDT p) as [|b0 [|b1 [|b2 [|b3 tl]]]] eqn:Hb; simpl in Hlen; try lia.
    1,2: exists SliceBoundsOutOfRange.
    3,4: exists IndexOutOfRange.
    all: intros rest found w; simpl; rewrite decide_False, decide_True by done;
      by rewrite Hb.
Qed.

Lemma loop_recognized_only (ps : list Property) :
  ∀ found (w : World),
    parseAndSetMetrics_loop (filter (λ p, recognized p = true) ps) found w
    = parseAndSetMetrics_loop ps found w.
Proof.
  induction ps as [|p ps IH]; intros found w; [done|].
  destruct (recognized p) eqn:Hrec.
  - rewrite filter_cons_True by done.
    destruct (Nat.leb_spec 4 (length (EDT p))) as [Hlen|Hlen].
    + by rewrite !loop_recognized, IH by done.
    + destruct (loop_short_reason p Hrec Hlen) as (r & Hr). by rewrite !Hr.
  - rewrite filter_cons_False by (by rewrite Hrec).
    by rewrite loop_other, IH by done.
Qed.

(** X15.  Properties other than the two readings are ignored altogether: the
    decoder does to the registry, the clock and the log exactly what it does
    on the response with those properties taken out, panic included. A
    property the meter adds to its answer cannot change what is exported. *)
Theorem other_properties_are_ignored (response : Frame) (w : World) :
  parseAndSetMetrics response w = parseAndSetMetrics (recognized_only response) w.
Proof.
  unfold parseAndSetMetrics, recognized_only. cbn [Properties]. prog_unfold.
  by rewrite loop_recognized_only.
Qed.

Lemma first_four_short (p : Property) :
  (length (EDT p) <= 4)%nat → first_four p = p.
Proof.
  intros Hlen. unfold first_four. rewrite take_ge by done. by destruct p.
Qed.

Lemma decode_property_first_four m (p : Property) :
  decode_property m (first_four p) = decode_property m p.
Proof.
  unfold decode_property, first_four. cbn [EPC EDT].
  destruct (EDT p) as [|b0 [|b1 [|b2 [|b3 tl]]]]; reflexivity.
Qed.

Lemma loop_first_four (ps : list Property) :
  ∀ found (w : World),
    parseAndSetMetrics_loop (first_four <$> ps) found w
    = parseAndSetMetrics_loop ps found w.
Proof.
  induction ps as [|p ps IH]; intros found w; [done|].
  rewrite fmap_cons.
  destruct (Nat.leb_spec (length (EDT p)) 4) as [Hlen|Hlen].
  { rewrite first_four_short by done.
    destruct (recognized p) eqn:Hrec.
    - destruct (Nat.leb_spec 4 (length (EDT p))) as [Hlen'|Hlen'].
      + by rewrite !loop_recognized, IH by done.
      + destruct (loop_short_reason p Hrec Hlen') as (r & Hr). by rewrite !Hr.
    - by rewrite !loop_other, IH by done. }
  destruct (recognized p) eqn:Hrec.
  - rewrite (loop_recognized (first_four p)); [|done|].
    + rewrite loop_recognized by (done || lia).
      by rewrite IH, decode_property_first_four.
    + unfold first_four. cbn [EDT]. rewrite length_take. lia.
  - by rewrite !loop_other, IH by done.
Qed.

(** X16.  Of a payload longer than four bytes only the first four are read:
    the decoder does exactly the same on the response with every payload cut
    to its first four bytes. A longer payload is neither an error nor a
    different reading. *)
Theorem only_four_bytes_are_read (response : Frame) (w : World) :
  parseAndSetMetrics response w
  = parseAndSetMetrics
      (NewFrame (Class_ response) (ESV response)
                (first_four <$> Properties response)) w.
Proof.
  unfold parseAndSetMetrics. cbn [Properties]. prog_unfold.
  by rewrite loop_first_four.
Qed.

(** X17.  A panic leaves the registry half updated: when the properties
    before the short one can be read, the decoder panics with the gauges
    already set to their readings, and with no stamp, no count and no log
    record. The exporter's last values are then those of a response it never
    finished reading. *)
Theorem panic_keeps_earlier_readings
  (response : Frame) pre (p : Property) post (w : World) :
  Properties response = pre ++ p :: post →
  forallb well_sized pre = true →
  recognized p = true →
  (length (EDT p) < 4)%nat →
  ∃ reason,
    parseAndSetMetrics response w
    = Panicked reason (with_metrics w (decode (metrics w) pre)) ∧
    lastSuccessGauge (decode (metrics w) pre) = lastSuccessGauge (metrics w) ∧
    scrapeErrors (decode (metrics w) pre) = scrapeErrors (metrics w).
Proof.
  intros Hps Hpre Hrec Hlen.
  destruct (loop_short_reason p Hrec Hlen) as (reason & Hr).
  exists reason. split.
  - unfold parseAndSetMetrics.
    unfold mbind at 1, Prog_bind, prog_bind.
    by rewrite Hps, loop_app_well_sized, Hr by done.
  - by destruct (decode_frame pre (metrics w)) as (-> & _ & ->).
Qed.

End CyclePaths.

(** ** Verbosity and what is written *)

Section Verbosity.
Context `{client : DeviceClient} `{clock : time.Clock}.

(** X18.  The three steps of the verbosity: at zero and below only records at
    the error level are written; at one, every record but the debug ones; at
    two and above, every record. So a higher verbosity never hides a record
    that a lower one shows, and three, which the flag's help names for
    debugging, does what two does. *)
Theorem verbosity_thresholds (verbosity : Z) (l : SlogLevel) msg attrs :
  written (levelFromVerbosity verbosity) (EvLog (Slog l msg attrs)) = true
  ↔ l = LevelError ∨ (1 <= verbosity ∧ l ≠ LevelDebug) ∨ 2 <= verbosity.
Proof.
  unfold written, handler_Enabled, levelFromVerbosity.
  destruct (Z.leb_spec verbosity 0) as [Hv|Hv].
  - destruct l; cbn; split; try done; try (intros [|[[]|]]; done || lia).
    by left.
  - destruct (Z.eqb_spec verbosity 1) as [->|Hne].
    + destruct l; cbn; split; try done; try (intros [|[[]|]]; done || lia).
      all: intros _; right; left; split; [lia|done].
    + destruct l; cbn; split; try done; intros _; do 2 right; lia.
Qed.

End Verbosity.

(** ** The configuration [main] settles *)

Lemma Getenv_empty env (k key : string) :
  os_Getenv (<[k := EmptyString]> env) key = os_Getenv (delete k env) key.
Proof.
  unfold os_Getenv. destruct (decide (k = key)) as [->|Hne].
  - by rewrite lookup_insert_eq, lookup_delete_eq.
  - by rewrite lookup_insert_ne, lookup_delete_ne.
Qed.

(** X19.  A variable set to the empty string is a variable that is not set,
    for each of the ten variables [main] and [logFormat] read and for
    everything [main] settles: the credentials, the device path, the
    interval, the port, the device options and the logger. In particular an
    empty [SMARTMETER_DSE] enables DSE, and empty credentials make [main]
    exit. *)
Theorem empty_variable_is_unset (intSize : Z) env (k : string) (args : CommandLine) :
  main_setup intSize (<[k := EmptyString]> env) args
  = main_setup intSize (delete k env) args.
Proof.
  unfold main_setup, newLogger, logFormat, verbosity_env, useDSE_env, getEnv.
  by rewrite !Getenv_empty.
Qed.

(** X20.  A flag that is given settles its variable: with all nine flags on
    the command line, the environment has no say in what [main] settles but
    for the log format, which has no flag. *)
Theorem flags_override_environment
  (intSize : Z) env env' ident password device itv port channel ipaddr dse verbosity :
  logFormat env = logFormat env' →
  let args := mkCommandLine (Some ident) (Some password) (Some device) (Some itv)
                (Some port) (Some channel) (Some ipaddr) (Some dse)
                (Some verbosity) in
  main_setup intSize env args = main_setup intSize env' args.
Proof.
  intros Hformat. unfold main_setup, newLogger.
  cbn [flag_Var default arg_id arg_password arg_device arg_interval arg_port
       arg_channel arg_ipaddr arg_dse arg_verbosity from_option id].
  by rewrite Hformat.
Qed.

Lemma getEnv_no_default env (key : string) :
  getEnv env key EmptyString = os_Getenv env key.
Proof.
  unfold getEnv. destruct (decide (os_Getenv env key ≠ EmptyString)) as [|He];
    [done|].
  by destruct (decide (os_Getenv env key = EmptyString)).
Qed.

(** X21.  The options [main] hands to [smartmeter.Open], when it gets past
    the check of the credentials: the ID, the password, the DSE setting and
    the verbosity it settled (the flag when given, the environment
    otherwise), the logger and a retry interval of five seconds, in this
    order; then the channel when one is configured, and then the address
    when one is configured, and nothing else. The verbosity is the one the
    logger's level was computed from, and no ID, password, channel or
    address among the options is empty. *)
Theorem device_options_are_never_empty (intSize : Z) env (args : CommandLine) s :
  main_setup intSize env args = Some s →
  let bRouteID := flag_Var (arg_id args) (os_Getenv env "SMARTMETER_ID") in
  let bRoutePass :=
    flag_Var (arg_password args) (os_Getenv env "SMARTMETER_PASSWORD") in
  let channel :=
    flag_Var (arg_channel args) (os_Getenv env "SMARTMETER_CHANNEL") in
  let ipAddr := flag_Var (arg_ipaddr args) (os_Getenv env "SMARTMETER_IPADDR") in
  let useDSE := flag_Var (arg_dse args) (useDSE_env env) in
  let verbosity := flag_Var (arg_verbosity args) (verbosity_env intSize env) in
  smOpts s
  = [ smartmeter.ID bRouteID; smartmeter.Password bRoutePass;
      smartmeter.DualStackSK useDSE; smartmeter.Verbosity verbosity;
      smartmeter.Logger; smartmeter.RetryInterval (5 * time.Second) ]
    ++ (if decide (channel = EmptyString) then []
        else [smartmeter.Channel channel])
    ++ (if decide (ipAddr = EmptyString) then []
        else [smartmeter.IPAddr ipAddr]) ∧
  Level (logger s) = levelFromVerbosity verbosity ∧
  ∀ x, smartmeter.ID x ∈ smOpts s ∨ smartmeter.Password x ∈ smOpts s ∨
       smartmeter.Channel x ∈ smOpts s ∨ smartmeter.IPAddr x ∈ smOpts s →
       x ≠ EmptyString.
Proof.
  unfold main_setup. rewrite !getEnv_no_default.
  destruct (decide _) as [|Hcred]; [done|]. intros [= <-].
  cbn [smOpts logger].
  set (bRouteID := flag_Var (arg_id args) _) in *.
  set (bRoutePass := flag_Var (arg_password args) _) in *.
  set (channel := flag_Var (arg_channel args) _).
  set (ipAddr := flag_Var (arg_ipaddr args) _).
  assert (bRouteID ≠ EmptyString) as Hid by (intros E; apply Hcred; by left).
  assert (bRoutePass ≠ EmptyString) as Hpw by (intros E; apply Hcred; by right).
  split; [|split].
  - destruct (decide (channel ≠ _)), (decide (channel = _)),
      (decide (ipAddr ≠ _)), (decide (ipAddr = _)); done.
  - unfold newLogger. by destruct (decide _).
  - intros x Hx.
    destruct (decide (channel ≠ _)) as [Hc|], (decide (ipAddr ≠ _)) as [Hi|];
      cbn [app] in Hx;
      destruct Hx as [Hx|[Hx|[Hx|Hx]]];
      repeat (apply elem_of_cons in Hx as [Hx|Hx];
              [try discriminate; by injection Hx as ->|]);
      by apply elem_of_nil in Hx.
Qed.

(** The interval and the DSE setting of [main_config] are the ones that reach
    the loop and the device: [main_setup] exits exactly when [main_config]
    does, and otherwise the loop is started with the interval of
    [main_config] and the device is opened with its [useDSE]. *)
Lemma setup_agrees_with_config (intSize : Z) env (args : CommandLine) :
  match main_setup intSize env args, main_config intSize env (flags_of args) with
  | Some s, Some cfg =>
      loopInterval s = interval cfg ∧
      smartmeter.DualStackSK (useDSE cfg) ∈ smOpts s
  | None, None => True
  | _, _ => False
  end.
Proof.
  unfold main_setup, main_config, flags_of.
  cbn [flag_id flag_password flag_interval flag_dse].
  destruct (decide _) as [|_]; [done|].
  cbn [loopInterval interval smOpts useDSE]. split; [done|].
  destruct (decide (flag_Var (arg_channel args) _ ≠ _)),
           (decide (flag_Var (arg_ipaddr args) _ ≠ _));
    rewrite ?elem_of_app; set_solver.
Qed.

(** ** The two variants of the loop *)

Section LoopVariants.
Context `{client : DeviceClient} `{clock : time.Clock}.

Lemma scrape_times_log_equiv (n : nat) :
  log_equiv (scrape_log_times n) (scrape_times n).
Proof.
  induction n as [|n IH]; cbn [scrape_log_times scrape_times].
  - apply log_equiv_ret.
  - apply log_equiv_bind; [apply scrape_log_equiv|]. by intros [].
Qed.

(** X22.  The two variants of [runScrapeLoop] differ in logging only, for
    every interval and every number of ticks: both panic in [time.NewTicker]
    or neither does, and after the same number of cycles they leave the same
    device, clock and registry and have made the same calls to the device and
    the same sleeps, whether they return or a cycle panics. *)
Theorem loops_agree_up_to_logging (interval : Z) (ticks : nat) (w : World) :
  erase_log_outcome (runScrapeLoop_log interval ticks w)
  = erase_log_outcome (runScrapeLoop interval ticks w).
Proof.
  enough (log_equiv (runScrapeLoop_log interval ticks)
                    (runScrapeLoop interval ticks)) as Heq by by apply Heq.
  unfold runScrapeLoop_log, runScrapeLoop, logger_Println, logger_Info.
  apply log_equiv_bind.
  { destruct (interval <=? 0); [apply log_equiv_panic|apply log_equiv_ret]. }
  intros []. apply log_equiv_bind; [apply log_equiv_log|]. intros [].
  apply log_equiv_bind; [apply scrape_log_equiv|]. intros [].
  apply scrape_times_log_equiv.
Qed.

End LoopVariants.

(** ** The further properties on the scripted device *)

Lemma partial_response_is_a_success_witness :
  let w := world "FE80::1" [ReplyQuery (inl response_power_only)]
             1700000000000000000 in
  decoded_response w = Some response_power_only ∧
  returns (scrape w) = true ∧
  scrapeErrors (metrics (final (scrape w))) = scrapeErrors (metrics w) ∧
  lastSuccessGauge (metrics (final (scrape w))) = 1700000000%float ∧
  currentGauge (metrics (final (scrape w))) = currentGauge (metrics w).
Proof.
  cbv zeta. split; [reflexivity|].
  destruct (partial_response_is_a_success
              (world "FE80::1" [ReplyQuery (inl response_power_only)]
                 1700000000000000000)
              response_power_only)
    as (Hret & Herr & Hstamp & _ & Hcur);
    [reflexivity | reflexivity | reflexivity |].
  split; [exact Hret|]. split; [exact Herr|]. split; [exact Hstamp|].
  apply Hcur. intros p Hp. apply list_elem_of_singleton in Hp as ->. discriminate.
Defined.

Lemma auth_failure_ends_cycle_witness :
  let w := world EmptyString
             [ReplyIP (inl "FE80::1"); ReplyQuery (inr "timeout");
              ReplyAuth (Some "denied")] 0 in
  returns (scrape w) = true ∧
  non_log (cycle_events w (scrape w))
  = [ EvGetNeibourIP; EvQueryEchonetLite request 3; EvSleep 5000000000;
      EvAuthenticate ] ∧
  scrapeErrors (metrics (final (scrape w))) = {[ errorTypeAuth := 1 ]}.
Proof.
  destruct (auth_failure_ends_cycle
              (world EmptyString
                 [ReplyIP (inl "FE80::1"); ReplyQuery (inr "timeout");
                  ReplyAuth (Some "denied")] 0)
              (mkDevice "FE80::1" [ReplyQuery (inr "timeout"); ReplyAuth (Some "denied")])
              "timeout" "denied"
              (mkDevice "FE80::1" [ReplyAuth (Some "denied")])
              (mkDevice "FE80::1" []))
    as (Hret & _ & Hev & Hcount & _); [reflexivity | reflexivity | reflexivity |].
  split; [exact Hret|]. split; [exact Hev | exact Hcount].
Defined.

Lemma repaired_query_is_a_success_witness :
  let w := world "FE80::1"
             [ReplyQuery (inr "timeout"); ReplyAuth None;
              ReplyQuery (inl response_1200W)] 1700000000000000000 in
  returns (scrape w) = true ∧
  non_log (cycle_events w (scrape w))
  = [ EvQueryEchonetLite request 3; EvSleep 5000000000; EvAuthenticate;
      EvSleep 2000000000; EvQueryEchonetLite request 3 ] ∧
  scrapeErrors (metrics (final (scrape w))) = ∅ ∧
  powerGauge (metrics (final (scrape w))) = 1200%float ∧
  lastSuccessGauge (metrics (final (scrape w))) = 1700000007%float.
Proof.
  destruct (repaired_query_is_a_success
              (world "FE80::1"
                 [ReplyQuery (inr "timeout"); ReplyAuth None;
                  ReplyQuery (inl response_1200W)] 1700000000000000000)
              (mkDevice "FE80::1"
                 [ReplyQuery (inr "timeout"); ReplyAuth None;
                  ReplyQuery (inl response_1200W)])
              "timeout"
              (mkDevice "FE80::1" [ReplyAuth None; ReplyQuery (inl response_1200W)])
              (mkDevice "FE80::1" [ReplyQuery (inl response_1200W)])
              response_1200W
              (mkDevice "FE80::1" []))
    as (Hret & _ & Hev & Hcount & Hpower & _ & Hstamp);
    [reflexivity | reflexivity | reflexivity | reflexivity | reflexivity
    | reflexivity |].
  split; [exact Hret|]. split; [exact Hev|]. split; [exact Hcount|].
  split; [exact Hpower | exact Hstamp].
Defined.

Lemma quiet_verbosity_silences_every_cycle_witness :
  let w := world "FE80::1" [ReplyQuery (inr "timeout"); ReplyAuth (Some "denied")] 0 in
  output (levelFromVerbosity 0) (cycle_events w (scrape w)) = [].
Proof.
  apply (quiet_verbosity_silences_every_cycle
           (world "FE80::1" [ReplyQuery (inr "timeout"); ReplyAuth (Some "denied")] 0)
           0).
  lia.
Defined.

Lemma loop_scrapes_at_start_and_per_tick_witness :
  let w := world "FE80::1"
             [ReplyQuery (inl response_1200W); ReplyQuery (inl response_unknown);
              ReplyQuery (inl response_1200W)] 0 in
  returns (runScrapeLoop (60 * time.Second) 2 w) = true ∧
  length (scrapeDuration (metrics (final (runScrapeLoop (60 * time.Second) 2 w))))
  = 3%nat.
Proof.
  cbv zeta. split; [vm_compute; reflexivity|].
  destruct (loop_scrapes_at_start_and_per_tick (60 * time.Second) 2
              (world "FE80::1"
                 [ReplyQuery (inl response_1200W); ReplyQuery (inl response_unknown);
                  ReplyQuery (inl response_1200W)] 0))
    as (Hlen & _); [reflexivity | vm_compute; reflexivity |].
  exact Hlen.
Defined.

Lemma loop_starts_on_32_bit_witness :
  main_config 32 env_overflow no_flags = Some (mkConfig true 60 60000000000) ∧
  panicked (runScrapeLoop 60000000000 0 (world "FE80::1" [] 0))
  ≠ Some NonPositiveTickerInterval.
Proof.
  split; [reflexivity|].
  destruct (loop_starts_on_32_bit env_overflow no_flags
              (mkConfig true 60 60000000000) 0 (world "FE80::1" [] 0))
    as (Hstart & _); [reflexivity|].
  exact Hstart.
Defined.

Lemma panic_keeps_earlier_readings_witness :
  let o := parseAndSetMetrics response_short_current (world "FE80::1" [] 0) in
  returns o = false ∧
  powerGauge (metrics (final o)) = 1200%float ∧
  lastSuccessGauge (metrics (final o)) = 0%float ∧
  scrapeErrors (metrics (final o)) = ∅.
Proof.
  destruct (panic_keeps_earlier_readings response_short_current
              [power_1200] current_short [] (world "FE80::1" [] 0))
    as (reason & Heq & Hstamp & Hcount);
    [reflexivity | reflexivity | reflexivity | cbn; lia |].
  cbv zeta. rewrite Heq. cbn [returns final metrics with_metrics].
  split; [reflexivity|]. split; [reflexivity|].
  split; [exact Hstamp | exact Hcount].
Defined.

Lemma flags_override_environment_witness :
  let args := mkCommandLine (Some "id") (Some "pw") (Some "/dev/ttyUSB0")
                (Some "30") (Some "9200") (Some "33") (Some "FE80::1")
                (Some false) (Some 2) in
  logFormat env_overflow = logFormat ∅ ∧
  main_setup 64 env_overflow args = main_setup 64 ∅ args.
Proof.
  split; [reflexivity|].
  apply (flags_override_environment 64 env_overflow ∅ "id" "pw" "/dev/ttyUSB0"
           "30" "9200" "33" "FE80::1" false 2).
  reflexivity.
Defined.

Lemma device_options_are_never_empty_witness :
  let args := mkCommandLine None None None None None (Some "33") None None None in
  ∃ s, main_setup 64 env_plain args = Some s ∧
       smOpts s
       = [ smartmeter.ID "id"; smartmeter.Password "pw";
           smartmeter.DualStackSK true; smartmeter.Verbosity 1;
           smartmeter.Logger; smartmeter.RetryInterval 5000000000;
           smartmeter.Channel "33" ] ∧
       Level (logger s) = LevelInfo.
Proof.
  cbv zeta. eexists. split; [reflexivity|].
  destruct (device_options_are_never_empty 64 env_plain
              (mkCommandLine None None None None None (Some "33") None None None)
              _ eq_refl)
    as (Hopts & Hlevel & _).
  split; [exact Hopts | exact Hlevel].
Defined.
